(** * explorergame: the simulation core of [main.go]

    A shallow embedding of the vehicle state ([Player]), the physical update
    loop ([updateTick]), the status-message sampler ([writeLines]) and the
    button callbacks that act as actuator operations, followed by the
    properties the specification states about them.

    Numbers.  Every numeric field of [Player] is a Go [float64].  The
    specification types these fields "real" and reads the update laws over
    the real numbers, so the embedding takes them as exact rationals [Q]:
    every finite [float64] is a rational, the literals of the source
    ([0.998], [2.5], ...) are read as the decimal fractions they spell, and
    [+], [-], [*], [/] are exact (no rounding, no infinities, no NaN).
    Comparisons ([<], [>]) and [math.Max]/[math.Min] are the order of [Q].
    Statements about numbers are up to [Qeq] ([==]).  Module [Float64]
    repeats the numeric code on binary64 numbers; it is used to evaluate the
    code with its own rounding at the concrete values the properties name.

    Randomness.  [rand.Float64()] returns a number of the half-open interval
    [0, 1); each call is an explicit argument of the tick ([u1], [u2]).

    Concurrency.  The goroutines of [main] share one [Player].  The
    embedding serialises them: a run is a list of [Event]s, each the body of
    one [select] case or of one button callback executed on the shared
    state. *)

From Stdlib Require Import PrimFloat.
From Stdlib Require Import ZArith Lia List String Ascii DecimalString.
From Stdlib Require Import QArith Qminmax Qround Qabs Lqa.
Import ListNotations.

Open Scope Q_scope.

(** ** Numeric helpers *)

(** Go's [x < y] on two numbers, as a boolean. *)
Definition Qltb (x y : Q) : bool := negb (Qle_bool y x).

(** [math.Max] and [math.Min]. *)
Definition mathMax (x y : Q) : Q := Qmax x y.
Definition mathMin (x y : Q) : Q := Qmin x y.

(** Nearest integer, ties to even: the rounding of [strconv.FormatFloat]. *)
Definition round_half_even (q : Q) : Z :=
  let f := Qfloor q in
  match Qcompare (q - inject_Z f) (1 # 2) with
  | Lt => f
  | Gt => (f + 1)%Z
  | Eq => if Z.even f then f else (f + 1)%Z
  end.

Definition decimal_of_Z (z : Z) : string :=
  NilZero.string_of_uint (N.to_uint (Z.to_N z)).

Definition drop_first (s : string) : string :=
  match s with
  | EmptyString => EmptyString
  | String _ rest => rest
  end.

(** [strconv.FormatFloat(v, 'f', prec, 64)] for [prec > 0]: sign, integer
    part, a point and exactly [prec] digits. *)
Definition FormatFloat (v : Q) (prec : nat) : string :=
  let scale := (10 ^ Z.of_nat prec)%Z in
  let n := round_half_even (Qabs v * inject_Z scale) in
  ((if Qltb v 0 then "-" else EmptyString)
     ++ decimal_of_Z (n / scale)
     ++ "."
     ++ drop_first (decimal_of_Z (scale + n mod scale)))%string.

(** ** Data model *)

Record Point3D := mkPoint3D { x : Q; y : Q; z : Q }.

Record Player := mkPlayer {
  position : Point3D;
  turbineRpmSettingValue : Q;
  turbineRpmActualValue : Q;
  velocity : Q;
  acceleration : Q;
  rudderAngle : Q;
  direction : Q;
  directionAcceleration : Q;
  buoyancy : Q;
  buoyancyAcceleration : Q
}.

(** Field assignments [p.f = v]. *)
Definition set_turbineRpmSettingValue (p : Player) (v : Q) : Player :=
  mkPlayer (position p) v (turbineRpmActualValue p) (velocity p)
           (acceleration p) (rudderAngle p) (direction p)
           (directionAcceleration p) (buoyancy p) (buoyancyAcceleration p).

Definition set_turbineRpmActualValue (p : Player) (v : Q) : Player :=
  mkPlayer (position p) (turbineRpmSettingValue p) v (velocity p)
           (acceleration p) (rudderAngle p) (direction p)
           (directionAcceleration p) (buoyancy p) (buoyancyAcceleration p).

Definition set_velocity (p : Player) (v : Q) : Player :=
  mkPlayer (position p) (turbineRpmSettingValue p) (turbineRpmActualValue p) v
           (acceleration p) (rudderAngle p) (direction p)
           (directionAcceleration p) (buoyancy p) (buoyancyAcceleration p).

Definition set_acceleration (p : Player) (v : Q) : Player :=
  mkPlayer (position p) (turbineRpmSettingValue p) (turbineRpmActualValue p)
           (velocity p) v (rudderAngle p) (direction p)
           (directionAcceleration p) (buoyancy p) (buoyancyAcceleration p).

Definition set_rudderAngle (p : Player) (v : Q) : Player :=
  mkPlayer (position p) (turbineRpmSettingValue p) (turbineRpmActualValue p)
           (velocity p) (acceleration p) v (direction p)
           (directionAcceleration p) (buoyancy p) (buoyancyAcceleration p).

(** The [player] literal of [main]. *)
Definition player_init : Player :=
  {| position := mkPoint3D 0.0 0.0 0.0;
     turbineRpmSettingValue := 0;
     turbineRpmActualValue := 0;
     velocity := 0.0;
     acceleration := 0.0;
     rudderAngle := 35.0;
     direction := 0.0;
     directionAcceleration := 0.0;
     buoyancy := 50.0;
     buoyancyAcceleration := 0.0 |}.

(** ** The status message of [writeLines] *)

(** The six branches of the [if]/[else if] chain. *)
Inductive Band :=
| Stopped
| NearlyStopped
| MovingForwardAtLowSpeed
| MovingForward
| MovingForwardAtHighSpeed
| FullSpeedForward.

(** Which branch the chain takes for a velocity. *)
Definition classify (v : Q) : Band :=
  if Qltb v 1.0 then Stopped
  else if Qltb v 10.0 then NearlyStopped
  else if Qltb v 50.0 then MovingForwardAtLowSpeed
  else if Qltb v 100.0 then MovingForward
  else if Qltb v 150.0 then MovingForwardAtHighSpeed
  else FullSpeedForward.

(** The string literal of each branch. *)
Definition label (b : Band) : string :=
  match b with
  | Stopped => "Stopped."
  | NearlyStopped => "Nearly Stopped."
  | MovingForwardAtLowSpeed => "Moving forward at low speed."
  | MovingForward => "Moving forward."
  | MovingForwardAtHighSpeed => "Moving forward at high speed."
  | FullSpeedForward => "Full speed forward."
  end.

(** The prologue of [writeLines] (lines 73-86): the value of the local
    variable [message] when the loop is entered. *)
Definition writeLines_message (p : Player) : string :=
  if Qltb (velocity p) 1.0 then
    ("Stopped." ++ FormatFloat (velocity p) 4)%string
  else if Qltb (velocity p) 10.0 then
    ("Nearly Stopped." ++ FormatFloat (velocity p) 4)%string
  else if Qltb (velocity p) 50.0 then
    ("Moving forward at low speed." ++ FormatFloat (velocity p) 4)%string
  else if Qltb (velocity p) 100.0 then
    ("Moving forward." ++ FormatFloat (velocity p) 4)%string
  else if Qltb (velocity p) 150.0 then
    ("Moving forward at high speed." ++ FormatFloat (velocity p) 4)%string
  else
    "Full speed forward."%string.

(** One [ticker.C] case of the loop of [writeLines]: the line handed to
    [t.Write].  The loop body reads the local [message] only; the shared
    [Player] is an argument here to make plain that it is not consulted. *)
Definition newline : string := String (ascii_of_nat 10) EmptyString.

Definition writeLines_tick (message : string) (p : Player) : string :=
  (message ++ newline)%string.

(** ** The physical update loop: [updateTick] *)

(** Line 112. *)
Definition tick_rpm_lag (p : Player) : Player :=
  set_turbineRpmActualValue p
    (turbineRpmActualValue p
     + (turbineRpmSettingValue p - turbineRpmActualValue p)
       / ((turbineRpmActualValue p + 1) * 5)).

(** Line 113. *)
Definition tick_rpm_decay (p : Player) : Player :=
  set_turbineRpmActualValue p (turbineRpmActualValue p * 0.998).

(** Line 114; [u1] is the value of [rand.Float64()]. *)
Definition tick_rpm_jitter (u1 : Q) (p : Player) : Player :=
  set_turbineRpmActualValue p
    (turbineRpmActualValue p + turbineRpmActualValue p * u1 * 0.004).

(** Line 117. *)
Definition tick_acceleration (p : Player) : Player :=
  set_acceleration p (turbineRpmActualValue p / 10.0).

(** Line 120. *)
Definition tick_velocity_add (p : Player) : Player :=
  set_velocity p (velocity p + acceleration p / 10).

(** Line 121; [u2] is the value of [rand.Float64()]. *)
Definition tick_velocity_damp (u2 : Q) (p : Player) : Player :=
  set_velocity p (velocity p * (0.99 + u2 * 0.003)).

(** The body of the [ticker.C] case of [updateTick], lines 112-121, on the
    shared [Player]; [u1] and [u2] are the two random draws in the order they
    are made. *)
Definition updateTick (p : Player) (u1 u2 : Q) : Player :=
  let p := tick_rpm_lag p in
  let p := tick_rpm_decay p in
  let p := tick_rpm_jitter u1 p in
  let p := tick_acceleration p in
  let p := tick_velocity_add p in
  let p := tick_velocity_damp u2 p in
  p.

(** The number handed to [display.Write] at the end of the case. *)
Definition updateTick_display (p : Player) (u1 u2 : Q) : Q :=
  velocity (updateTick p u1 u2).

(** *** The same body with every division instrumented

    A division whose divisor is zero has no quotient among the numbers; on
    [float64] it produces an infinity or a NaN.  [checked_div] reports that
    case as [None], and [updateTick_checked] is [updateTick] with each [/]
    replaced by it. *)
Definition checked_div (a b : Q) : option Q :=
  if Qeq_bool b 0 then None else Some (a / b).

Definition bind {A B : Type} (m : option A) (k : A -> option B) : option B :=
  match m with
  | Some a => k a
  | None => None
  end.

Notation "'do' v <- m ; k" := (bind m (fun v => k))
  (at level 10, v name, m at level 100, k at level 200).

Definition updateTick_checked (p : Player) (u1 u2 : Q) : option Player :=
  do q <- checked_div (turbineRpmSettingValue p - turbineRpmActualValue p)
                      ((turbineRpmActualValue p + 1) * 5);
  let p := set_turbineRpmActualValue p (turbineRpmActualValue p + q) in
  let p := set_turbineRpmActualValue p (turbineRpmActualValue p * 0.998) in
  let p := set_turbineRpmActualValue p
             (turbineRpmActualValue p + turbineRpmActualValue p * u1 * 0.004) in
  do q <- checked_div (turbineRpmActualValue p) 10.0;
  let p := set_acceleration p q in
  do q <- checked_div (acceleration p) 10;
  let p := set_velocity p (velocity p + q) in
  let p := set_velocity p (velocity p * (0.99 + u2 * 0.003)) in
  Some p.

(** ** Actuator operations: the button callbacks of [main] *)

(** The callback of [buttonTurbinePlus], lines 290-293. *)
Definition buttonTurbinePlus (p : Player) : Player :=
  let p := set_turbineRpmSettingValue p (turbineRpmSettingValue p + 10) in
  if Qltb 200 (turbineRpmSettingValue p)
  then set_turbineRpmSettingValue p 200
  else p.

(** The callback of [buttonTurbineMinus], lines 301-304. *)
Definition buttonTurbineMinus (p : Player) : Player :=
  let p := set_turbineRpmSettingValue p (turbineRpmSettingValue p - 10) in
  if Qltb (turbineRpmSettingValue p) 0
  then set_turbineRpmSettingValue p 0
  else p.

(** The callback of [rudderLeftButtonObj], line 342 (the local
    [settingValue] of line 340 is never read). *)
Definition rudderLeftButtonObj (p : Player) : Player :=
  set_rudderAngle p (mathMax (mathMin (rudderAngle p - 2.5) 70) 0).

(** ** Runs of the program *)

(** What can happen to the shared state: a case of a loop fires or a button
    is pressed.  These are all the writers of [Player] in [main.go]. *)
Inductive Event :=
| EvUpdateTick (u1 u2 : Q)   (* [updateTick]: the ticker fires *)
| EvTurbinePlus              (* the "+ 10" button *)
| EvTurbineMinus             (* the "- 10" button *)
| EvRudderLeft               (* the "L" button *)
| EvWriteLinesStart          (* [writeLines]: the goroutine runs lines 73-88 *)
| EvWriteLinesTick.          (* [writeLines]: the ticker fires *)

(** The buttons among the events. *)
Definition is_actuator (e : Event) : bool :=
  match e with
  | EvTurbinePlus | EvTurbineMinus | EvRudderLeft => true
  | _ => false
  end.

Definition is_throttle (e : Event) : bool :=
  match e with
  | EvTurbinePlus | EvTurbineMinus => true
  | _ => false
  end.

(** The random draws of an event are values of [rand.Float64()]. *)
Definition draws_in_range (e : Event) : Prop :=
  match e with
  | EvUpdateTick u1 u2 => (0 <= u1 /\ u1 < 1) /\ (0 <= u2 /\ u2 < 1)
  | _ => True
  end.

(** The effect of an event on the shared [Player]. *)
Definition apply_event (p : Player) (e : Event) : Player :=
  match e with
  | EvUpdateTick u1 u2 => updateTick p u1 u2
  | EvTurbinePlus => buttonTurbinePlus p
  | EvTurbineMinus => buttonTurbineMinus p
  | EvRudderLeft => rudderLeftButtonObj p
  | EvWriteLinesStart => p
  | EvWriteLinesTick => p
  end.

Definition run_player (p : Player) (es : list Event) : Player :=
  fold_left apply_event es p.

(** The shared state together with the local variable [message] of the
    [writeLines] goroutine ([None] until the goroutine has run its prologue)
    and the lines written to the [rolled] text widget, oldest first. *)
Record World := mkWorld {
  w_player : Player;
  w_message : option string;
  w_rolled : list string
}.

Definition step (w : World) (e : Event) : World :=
  match e with
  | EvWriteLinesStart =>
      mkWorld (w_player w) (Some (writeLines_message (w_player w))) (w_rolled w)
  | EvWriteLinesTick =>
      match w_message w with
      | Some message =>
          mkWorld (w_player w) (w_message w)
                  (w_rolled w ++ [writeLines_tick message (w_player w)])
      | None => w
      end
  | _ => mkWorld (apply_event (w_player w) e) (w_message w) (w_rolled w)
  end.

Definition run (w : World) (es : list Event) : World :=
  fold_left step es w.

(** [main] up to the start of the goroutines. *)
Definition world_init : World := mkWorld player_init None [].

(** A run in which the vehicle gathers way after [writeLines] has started:
    the goroutine starts on the initial state, the "+ 10" button is pressed
    twenty times, [updateTick] fires three times (both draws 0 each time),
    then the ticker of [writeLines] fires. *)
Definition run_under_way : list Event :=
  [EvWriteLinesStart]
    ++ repeat EvTurbinePlus 20
    ++ [EvUpdateTick 0 0; EvUpdateTick 0 0; EvUpdateTick 0 0]
    ++ [EvWriteLinesTick].

(** ** The specification's formulas

    Definitions written from the specification's text, to be compared with
    the code above. *)
Module Spec.

Definition clamp (v lo hi : Q) : Q := Qmax lo (Qmin v hi).

(** "turbineRpmSetting = min(turbineRpmSetting + 10, 200)" *)
Definition increaseThrottle (s : Q) : Q := Qmin (s + 10) 200.

(** "turbineRpmSetting = max(turbineRpmSetting - 10, 0)" *)
Definition decreaseThrottle (s : Q) : Q := Qmax (s - 10) 0.

(** "rudderAngle = clamp(rudderAngle - 2.5, 0, 70)" *)
Definition rudderLeft (r : Q) : Q := clamp (r - 2.5) 0 70.

(** "rudderAngle = clamp(rudderAngle + 2.5, 0, 70)" *)
Definition rudderRight (r : Q) : Q := clamp (r + 2.5) 0 70.

(** The lag step "a' = a + (s - a) / ((a + 1) * 5)". *)
Definition lag_step (s a : Q) : Q := a + (s - a) / ((a + 1) * 5).

(** The six updates of a tick, in the order of section 4.1, with the draw
    [r1] of U(0, 0.004) and the draw [d] of U(0.99, 0.993). *)
Definition tick (p : Player) (r1 d : Q) : Player :=
  let rpm1 := turbineRpmActualValue p
              + (turbineRpmSettingValue p - turbineRpmActualValue p)
                / ((turbineRpmActualValue p + 1) * 5) in
  let rpm2 := rpm1 * 0.998 in
  let rpm3 := rpm2 + rpm2 * r1 in
  let acc4 := rpm3 / 10.0 in
  let vel5 := velocity p + acc4 / 10 in
  let vel6 := vel5 * d in
  {| position := position p;
     turbineRpmSettingValue := turbineRpmSettingValue p;
     turbineRpmActualValue := rpm3;
     velocity := vel6;
     acceleration := acc4;
     rudderAngle := rudderAngle p;
     direction := direction p;
     directionAcceleration := directionAcceleration p;
     buoyancy := buoyancy p;
     buoyancyAcceleration := buoyancyAcceleration p |}.

(** The band table of section 4.2, as an ordered first match. *)
Definition band_table : list (Q * Band) :=
  [ (1.0, Stopped); (10.0, NearlyStopped); (50.0, MovingForwardAtLowSpeed);
    (100.0, MovingForward); (150.0, MovingForwardAtHighSpeed) ].

Fixpoint first_match (rows : list (Q * Band)) (v : Q) : Band :=
  match rows with
  | [] => FullSpeedForward
  | (bound, b) :: rest => if Qltb v bound then b else first_match rest v
  end.

(** The invariant ranges of the data model, section 3. *)
Definition state_invariant (p : Player) : Prop :=
  0 <= turbineRpmActualValue p
  /\ 0 <= velocity p
  /\ 0 <= turbineRpmSettingValue p <= 200.

End Spec.

(** Two states agree: numeric fields up to [==]. *)
Definition Point3D_eq (a b : Point3D) : Prop :=
  x a == x b /\ y a == y b /\ z a == z b.

Definition Player_eq (p q : Player) : Prop :=
  Point3D_eq (position p) (position q)
  /\ turbineRpmSettingValue p == turbineRpmSettingValue q
  /\ turbineRpmActualValue p == turbineRpmActualValue q
  /\ velocity p == velocity q
  /\ acceleration p == acceleration q
  /\ rudderAngle p == rudderAngle q
  /\ direction p == direction q
  /\ directionAcceleration p == directionAcceleration q
  /\ buoyancy p == buoyancy q
  /\ buoyancyAcceleration p == buoyancyAcceleration q.

(** The fields a tick is not meant to write, compared exactly. *)
Definition same_untouched_by_tick (p q : Player) : Prop :=
  position p = position q
  /\ turbineRpmSettingValue p = turbineRpmSettingValue q
  /\ rudderAngle p = rudderAngle q
  /\ direction p = direction q
  /\ directionAcceleration p = directionAcceleration q
  /\ buoyancy p = buoyancy q
  /\ buoyancyAcceleration p = buoyancyAcceleration q.

(** ** The numeric code on binary64

    The same statements of [main.go] on IEEE 754 binary64 numbers with
    round-to-nearest-even, the arithmetic of Go's [float64].  The state is
    cut down to the five fields the statements read or write. *)
Module Float64.

#[local] Set Warnings "-inexact-float".
#[local] Open Scope float_scope.

(** [math.Max] and [math.Min] on numbers that are not NaN. *)
Definition mathMax (a b : float) : float := if b <? a then a else b.
Definition mathMin (a b : float) : float := if a <? b then a else b.

Record Player := mkPlayer {
  turbineRpmSettingValue : float;
  turbineRpmActualValue : float;
  velocity : float;
  acceleration : float;
  rudderAngle : float
}.

Definition player_init : Player :=
  {| turbineRpmSettingValue := 0;
     turbineRpmActualValue := 0;
     velocity := 0.0;
     acceleration := 0.0;
     rudderAngle := 35.0 |}.

(** Lines 74-86, the branch taken. *)
Definition classify (v : float) : Band :=
  if v <? 1.0 then Stopped
  else if v <? 10.0 then NearlyStopped
  else if v <? 50.0 then MovingForwardAtLowSpeed
  else if v <? 100.0 then MovingForward
  else if v <? 150.0 then MovingForwardAtHighSpeed
  else FullSpeedForward.

(** Line 112, from the setpoint [s] and the actual rpm [rpm]. *)
Definition tick_rpm_lag (s rpm : float) : float :=
  rpm + (s - rpm) / ((rpm + 1) * 5).

(** Lines 112-121. *)
Definition updateTick (p : Player) (u1 u2 : float) : Player :=
  let rpm := turbineRpmActualValue p in
  let rpm := tick_rpm_lag (turbineRpmSettingValue p) rpm in
  let rpm := rpm * 0.998 in
  let rpm := rpm + rpm * u1 * 0.004 in
  let acc := rpm / 10.0 in
  let vel := velocity p in
  let vel := vel + acc / 10 in
  let vel := vel * (0.99 + u2 * 0.003) in
  mkPlayer (turbineRpmSettingValue p) rpm vel acc (rudderAngle p).

(** Lines 290-293, 301-304 and 342, on the field they write. *)
Definition buttonTurbinePlus (s : float) : float :=
  let s := s + 10 in
  if 200 <? s then 200 else s.

Definition buttonTurbineMinus (s : float) : float :=
  let s := s - 10 in
  if s <? 0 then 0 else s.

Definition rudderLeftButtonObj (r : float) : float :=
  mathMax (mathMin (r - 2.5) 70) 0.

(** The setpoints a run can store: 0, 10, ..., 200. *)
Definition setpoints : list float :=
  map (fun n => Nat.iter n buttonTurbinePlus 0) (seq 0 21).

End Float64.

(** ** The display samplers

    The body of the [ticker.C] case of each of the three gauge loops: the
    arguments it hands to [Absolute] of its widget, the amount done first
    and the total second. *)

(** Go's conversion [int(v)] of a number: the fraction is discarded
    (truncation toward zero). *)
Definition int_of_float64 (v : Q) : Z := Z.quot (Qnum v) (Z.pos (Qden v)).

(** [rpmSettingGauge], lines 141-142. *)
Definition rpmSettingGauge_tick (p : Player) : Z * Z :=
  let displayValue :=
    int_of_float64 (mathMax (mathMin (turbineRpmSettingValue p) 200.0) 0) in
  (displayValue, 200%Z).

(** The two cell colours [rpmMeterDonut] uses. *)
Inductive Color := ColorYellow | ColorRed.

(** [rpmMeterDonut], lines 159-169. *)
Definition rpmMeterDonut_tick (p : Player) : Z * Z * Color :=
  let displayValue := mathMax (mathMin (turbineRpmActualValue p) 200.0) 0 in
  if Qltb displayValue 140
  then (int_of_float64 displayValue, 200%Z, ColorYellow)
  else (int_of_float64 displayValue, 200%Z, ColorRed).

(** [rudderAngleGauge], lines 184-185. *)
Definition rudderAngleGauge_tick (p : Player) : Z * Z :=
  let displayValue :=
    int_of_float64 (mathMax (mathMin (rudderAngle p) 70.0) 0) in
  (displayValue, 70%Z).

(** ** Counting events *)

Definition is_rudderLeft (e : Event) : bool :=
  match e with
  | EvRudderLeft => true
  | _ => false
  end.

Definition is_turbinePlus (e : Event) : bool :=
  match e with
  | EvTurbinePlus => true
  | _ => false
  end.

(** The two events of the [writeLines] goroutine. *)
Definition is_writeLines (e : Event) : bool :=
  match e with
  | EvWriteLinesStart | EvWriteLinesTick => true
  | _ => false
  end.

Definition is_writeLinesTick (e : Event) : bool :=
  match e with
  | EvWriteLinesTick => true
  | _ => false
  end.

Definition count_events (f : Event -> bool) (es : list Event) : nat :=
  List.length (filter f es).

(** ** Frames *)

(** Two states differ at most in the setpoint. *)
Definition same_but_setting (p q : Player) : Prop :=
  position p = position q
  /\ turbineRpmActualValue p = turbineRpmActualValue q
  /\ velocity p = velocity q
  /\ acceleration p = acceleration q
  /\ rudderAngle p = rudderAngle q
  /\ direction p = direction q
  /\ directionAcceleration p = directionAcceleration q
  /\ buoyancy p = buoyancy q
  /\ buoyancyAcceleration p = buoyancyAcceleration q.

(** Two states differ at most in the rudder angle. *)
Definition same_but_rudderAngle (p q : Player) : Prop :=
  position p = position q
  /\ turbineRpmSettingValue p = turbineRpmSettingValue q
  /\ turbineRpmActualValue p = turbineRpmActualValue q
  /\ velocity p = velocity q
  /\ acceleration p = acceleration q
  /\ direction p = direction q
  /\ directionAcceleration p = directionAcceleration q
  /\ buoyancy p = buoyancy q
  /\ buoyancyAcceleration p = buoyancyAcceleration q.

(** The setpoint is one of 0, 10, ..., 200. *)
Definition setpoint_on_grid (p : Player) : Prop :=
  exists k : Z,
    (0 <= k <= 20)%Z /\ turbineRpmSettingValue p == inject_Z (10 * k).

(** [n] ticks of [updateTick] on binary64, each with the draws [u1] and
    [u2]. *)
Definition float64_ticks (n : nat) (u1 u2 : float) (p : Float64.Player)
  : Float64.Player :=
  Nat.iter n (fun q => Float64.updateTick q u1 u2) p.

(** * Properties *)

(** ** Comparisons and clamps *)

Lemma Qltb_lt (a b : Q) : Qltb a b = true <-> a < b.
Proof.
  unfold Qltb. rewrite Bool.negb_true_iff.
  split; intro H.
  - apply Qnot_le_lt. intro Hle. apply Qle_bool_iff in Hle. congruence.
  - destruct (Qle_bool b a) eqn:E; [|reflexivity].
    apply Qle_bool_iff in E. lra.
Qed.

Lemma Qltb_ge (a b : Q) : Qltb a b = false <-> b <= a.
Proof.
  unfold Qltb. rewrite Bool.negb_false_iff. apply Qle_bool_iff.
Qed.

(** Case analysis on a comparison of the source. *)
Ltac case_Qltb a b :=
  let E := fresh "E" in
  destruct (Qltb a b) eqn:E;
  [apply Qltb_lt in E | apply Qltb_ge in E].

Lemma Qmin_cases (a b : Q) :
  (a <= b /\ Qmin a b == a) \/ (b <= a /\ Qmin a b == b).
Proof.
  destruct (Q.min_spec a b) as [[H1 H2]|[H1 H2]]; [left|right]; split;
    try assumption; lra.
Qed.

Lemma Qmax_cases (a b : Q) :
  (a <= b /\ Qmax a b == b) \/ (b <= a /\ Qmax a b == a).
Proof.
  destruct (Q.max_spec a b) as [[H1 H2]|[H1 H2]]; [left|right]; split;
    try assumption; lra.
Qed.

(** Replace every [Qmin]/[Qmax] of the goal by its two cases. *)
Ltac split_minmax :=
  unfold mathMax, mathMin, Spec.clamp in *;
  repeat match goal with
  | |- context [Qmin ?a ?b] =>
      let H := fresh "Hmin" in
      let m := fresh "m" in
      destruct (Qmin_cases a b) as [[? H]|[? H]];
      remember (Qmin a b) as m
  | |- context [Qmax ?a ?b] =>
      let H := fresh "Hmax" in
      let m := fresh "m" in
      destruct (Qmax_cases a b) as [[? H]|[? H]];
      remember (Qmax a b) as m
  end.

(** ** Throttle *)

Lemma buttonTurbinePlus_setting (p : Player) :
  turbineRpmSettingValue (buttonTurbinePlus p)
  == Spec.increaseThrottle (turbineRpmSettingValue p).
Proof.
  unfold buttonTurbinePlus, Spec.increaseThrottle. cbn.
  case_Qltb 200 (turbineRpmSettingValue p + 10); cbn; split_minmax; lra.
Qed.

Lemma buttonTurbineMinus_setting (p : Player) :
  turbineRpmSettingValue (buttonTurbineMinus p)
  == Spec.decreaseThrottle (turbineRpmSettingValue p).
Proof.
  unfold buttonTurbineMinus, Spec.decreaseThrottle. cbn.
  case_Qltb (turbineRpmSettingValue p - 10) 0; cbn; split_minmax; lra.
Qed.

Lemma increaseThrottle_range (s : Q) :
  0 <= s <= 200 -> 0 <= Spec.increaseThrottle s <= 200.
Proof. unfold Spec.increaseThrottle. intros H. split_minmax; lra. Qed.

Lemma decreaseThrottle_range (s : Q) :
  0 <= s <= 200 -> 0 <= Spec.decreaseThrottle s <= 200.
Proof. unfold Spec.decreaseThrottle. intros H. split_minmax; lra. Qed.

Lemma buttonTurbinePlus_range (p : Player) :
  0 <= turbineRpmSettingValue p <= 200 ->
  0 <= turbineRpmSettingValue (buttonTurbinePlus p) <= 200.
Proof.
  intros H. rewrite buttonTurbinePlus_setting.
  now apply increaseThrottle_range.
Qed.

Lemma buttonTurbineMinus_range (p : Player) :
  0 <= turbineRpmSettingValue p <= 200 ->
  0 <= turbineRpmSettingValue (buttonTurbineMinus p) <= 200.
Proof.
  intros H. rewrite buttonTurbineMinus_setting.
  now apply decreaseThrottle_range.
Qed.

Lemma run_player_cons (p : Player) (e : Event) (es : list Event) :
  run_player p (e :: es) = run_player (apply_event p e) es.
Proof. reflexivity. Qed.

Lemma throttle_run_range (es : list Event) :
  forall p,
    forallb is_throttle es = true ->
    0 <= turbineRpmSettingValue p <= 200 ->
    0 <= turbineRpmSettingValue (run_player p es) <= 200.
Proof.
  induction es as [|e es IH]; intros p Hes Hp; [exact Hp|].
  cbn in Hes. apply andb_prop in Hes as [He Hes].
  rewrite run_player_cons. apply IH; [exact Hes|].
  destruct e; try discriminate; cbn.
  - now apply buttonTurbinePlus_range.
  - now apply buttonTurbineMinus_range.
Qed.

(** [n] presses of "+ 10" that stay below the bound add [10 * n]. *)
Lemma plus_presses (n : nat) :
  forall p,
    turbineRpmSettingValue p + 10 * inject_Z (Z.of_nat n) <= 200 ->
    turbineRpmSettingValue (run_player p (repeat EvTurbinePlus n))
    == turbineRpmSettingValue p + 10 * inject_Z (Z.of_nat n).
Proof.
  induction n as [|n IH]; intros p Hp.
  - change (inject_Z (Z.of_nat 0)) with 0.
    change (run_player p (repeat EvTurbinePlus 0)) with p. lra.
  - rewrite Nat2Z.inj_succ in *. unfold Z.succ in *.
    rewrite inject_Z_plus in *. change (inject_Z 1) with 1 in *.
    cbn [repeat]. rewrite run_player_cons. cbn [apply_event].
    assert (Hs : turbineRpmSettingValue (buttonTurbinePlus p)
                 == turbineRpmSettingValue p + 10).
    { rewrite buttonTurbinePlus_setting. unfold Spec.increaseThrottle.
      assert (0 <= inject_Z (Z.of_nat n)).
      { change 0 with (inject_Z 0). rewrite <- Zle_Qle. lia. }
      split_minmax; lra. }
    rewrite IH; lra.
Qed.

(** C5.  The "+ 10" callback sets the setpoint to min(setpoint + 10, 200)
    and the "- 10" callback sets it to max(setpoint - 10, 0); hence from
    every setpoint in [0, 200] every finite sequence of the two keeps the
    setpoint in [0, 200], and twenty "+ 10" presses from setpoint 0 give
    exactly 200. *)
Theorem throttle_min_max_bounded :
  (forall p, turbineRpmSettingValue (buttonTurbinePlus p)
             == Qmin (turbineRpmSettingValue p + 10) 200)
  /\ (forall p, turbineRpmSettingValue (buttonTurbineMinus p)
                == Qmax (turbineRpmSettingValue p - 10) 0)
  /\ (forall p es,
        0 <= turbineRpmSettingValue p <= 200 ->
        forallb is_throttle es = true ->
        0 <= turbineRpmSettingValue (run_player p es) <= 200)
  /\ (forall p,
        turbineRpmSettingValue p == 0 ->
        turbineRpmSettingValue (run_player p (repeat EvTurbinePlus 20))
        == 200).
Proof.
  split; [|split; [|split]].
  - apply buttonTurbinePlus_setting.
  - apply buttonTurbineMinus_setting.
  - intros p es Hp Hes. now apply throttle_run_range.
  - intros p Hp.
    assert (Hroom : turbineRpmSettingValue p
                    + 10 * inject_Z (Z.of_nat 20) <= 200).
    { rewrite Hp. vm_compute. discriminate. }
    rewrite (plus_presses 20 p Hroom), Hp. reflexivity.
Qed.

Lemma throttle_min_max_bounded_witness :
  0 <= turbineRpmSettingValue
         (run_player player_init
            [EvTurbinePlus; EvTurbineMinus; EvTurbineMinus; EvTurbinePlus])
    <= 200
  /\ turbineRpmSettingValue (run_player player_init (repeat EvTurbinePlus 20))
     == 200.
Proof.
  destruct throttle_min_max_bounded as (_ & _ & Hrun & Htwenty).
  split.
  - apply Hrun; [vm_compute; split; discriminate | reflexivity].
  - apply Htwenty. reflexivity.
Defined.



(** ** Rudder *)

Lemma rudderLeft_angle (p : Player) :
  rudderAngle (rudderLeftButtonObj p) == Spec.rudderLeft (rudderAngle p).
Proof.
  unfold rudderLeftButtonObj, Spec.rudderLeft. cbn.
  split_minmax; lra.
Qed.

Lemma rudderLeft_range (p : Player) :
  0 <= rudderAngle (rudderLeftButtonObj p) <= 70.
Proof.
  unfold rudderLeftButtonObj. cbn. split_minmax; lra.
Qed.

(** The "L" button never raises a non-negative angle. *)
Lemma rudderLeft_not_above (p : Player) :
  0 <= rudderAngle p ->
  rudderAngle (rudderLeftButtonObj p) <= rudderAngle p.
Proof.
  intros H. unfold rudderLeftButtonObj. cbn. split_minmax; lra.
Qed.

(** Only the "L" button writes the rudder angle. *)
Lemma rudderAngle_other_events (p : Player) (e : Event) :
  e <> EvRudderLeft -> rudderAngle (apply_event p e) = rudderAngle p.
Proof.
  intros He. destruct e; try reflexivity.
  - cbn. unfold buttonTurbinePlus. cbn.
    destruct (Qltb 200 (turbineRpmSettingValue p + 10)); reflexivity.
  - cbn. unfold buttonTurbineMinus. cbn.
    destruct (Qltb (turbineRpmSettingValue p - 10) 0); reflexivity.
  - congruence.
Qed.

Lemma rudderAngle_event_range (p : Player) (e : Event) :
  0 <= rudderAngle p <= 70 -> 0 <= rudderAngle (apply_event p e) <= 70.
Proof.
  intros H.
  assert (D : e = EvRudderLeft \/ e <> EvRudderLeft)
    by (destruct e; (now left) || (right; discriminate)).
  destruct D as [->|D].
  - apply rudderLeft_range.
  - rewrite rudderAngle_other_events by exact D. exact H.
Qed.

Lemma rudderAngle_run_range (es : list Event) :
  forall p, 0 <= rudderAngle p <= 70 ->
            0 <= rudderAngle (run_player p es) <= 70.
Proof.
  induction es as [|e es IH]; intros p Hp; [exact Hp|].
  rewrite run_player_cons. apply IH. now apply rudderAngle_event_range.
Qed.

(** No event of the program acts as the specification's rudderRight():
    from the initial angle 35 none of them yields 37.5. *)
Lemma no_event_is_rudderRight (e : Event) :
  ~ (rudderAngle (apply_event player_init e)
     == Spec.rudderRight (rudderAngle player_init)).
Proof.
  destruct e; vm_compute; discriminate.
Qed.

Lemma rudderLeft_presses_nonneg (n : nat) :
  forall p, 0 <= rudderAngle p ->
            0 <= rudderAngle (run_player p (repeat EvRudderLeft n)).
Proof.
  induction n as [|n IH]; intros p Hp; [exact Hp|].
  cbn [repeat]. rewrite run_player_cons. apply IH.
  apply rudderLeft_range.
Qed.

(** C6, as stated, fails: the program has no actuator operation that sets
    rudderAngle to clamp(rudderAngle + 2.5, 0, 70). *)
Lemma no_rudderRight_operation :
  ~ exists e : Event,
      is_actuator e = true
      /\ forall p, rudderAngle (apply_event p e)
                   == Spec.rudderRight (rudderAngle p).
Proof.
  intros (e & _ & H).
  exact (no_event_is_rudderRight e (H player_init)).
Qed.

(** C6, amended.  The program provides no rudderRight() operation: no event
    sets rudderAngle to clamp(rudderAngle + 2.5, 0, 70), and the "L" button
    is the only writer of rudderAngle.  That button leaves rudderAngle in
    [0, 70] and does not raise a non-negative angle, so no run started with
    rudderAngle in [0, 70] drives it outside [0, 70]. *)
Theorem rudder_only_left_bounded :
  (forall e : Event,
      ~ forall p, rudderAngle (apply_event p e)
                  == Spec.rudderRight (rudderAngle p))
  /\ (forall p e, e <> EvRudderLeft ->
                  rudderAngle (apply_event p e) = rudderAngle p)
  /\ (forall p, 0 <= rudderAngle (rudderLeftButtonObj p) <= 70)
  /\ (forall p, 0 <= rudderAngle p ->
                rudderAngle (rudderLeftButtonObj p) <= rudderAngle p)
  /\ (forall p es, 0 <= rudderAngle p <= 70 ->
                   0 <= rudderAngle (run_player p es) <= 70).
Proof.
  split; [|split; [|split; [|split]]].
  - intros e H. exact (no_event_is_rudderRight e (H player_init)).
  - apply rudderAngle_other_events.
  - apply rudderLeft_range.
  - apply rudderLeft_not_above.
  - intros p es Hp. now apply rudderAngle_run_range.
Qed.

Lemma rudder_only_left_bounded_witness :
  rudderAngle (apply_event player_init EvTurbinePlus) = rudderAngle player_init
  /\ rudderAngle (rudderLeftButtonObj player_init) <= rudderAngle player_init
  /\ 0 <= rudderAngle
            (run_player player_init
               [EvRudderLeft; EvUpdateTick 0 0; EvRudderLeft]) <= 70.
Proof.
  destruct rudder_only_left_bounded as (_ & Hother & _ & Hdown & Hrun).
  split; [|split].
  - apply Hother. discriminate.
  - apply Hdown. vm_compute. discriminate.
  - apply Hrun. vm_compute. split; discriminate.
Defined.

(** C7.  The "L" callback sets rudderAngle to clamp(rudderAngle - 2.5, 0,
    70); from the initial angle 35 three presses give 27.5, and no number of
    presses drives the angle below 0. *)
Theorem rudderLeft_clamped_steps :
  (forall p, rudderAngle (rudderLeftButtonObj p)
             == Spec.clamp (rudderAngle p - 2.5) 0 70)
  /\ rudderAngle player_init == 35
  /\ rudderAngle
       (run_player player_init [EvRudderLeft; EvRudderLeft; EvRudderLeft])
     == 27.5
  /\ (forall n m,
        0 <= rudderAngle
               (run_player
                  (run_player player_init (repeat EvRudderLeft n))
                  (repeat EvRudderLeft m))).
Proof.
  split; [|split; [|split]].
  - apply rudderLeft_angle.
  - reflexivity.
  - reflexivity.
  - intros n m. apply rudderLeft_presses_nonneg.
    apply rudderLeft_presses_nonneg. vm_compute. discriminate.
Qed.

(** ** Velocity bands *)

Lemma classify_first_match (v : Q) :
  classify v = Spec.first_match Spec.band_table v.
Proof. reflexivity. Qed.

(** The message of [writeLines] is the literal of the branch taken,
    followed by the formatted velocity except in the last branch. *)
Lemma writeLines_message_label (p : Player) :
  writeLines_message p
  = (label (classify (velocity p))
       ++ match classify (velocity p) with
          | FullSpeedForward => EmptyString
          | _ => FormatFloat (velocity p) 4
          end)%string.
Proof.
  unfold writeLines_message, classify.
  repeat match goal with
         | |- context [Qltb ?a ?b] => destruct (Qltb a b)
         end; reflexivity.
Qed.

Lemma label_injective (b1 b2 : Band) : label b1 = label b2 -> b1 = b2.
Proof. destruct b1, b2; cbn; intros H; (reflexivity || discriminate H). Qed.

Lemma classify_bands (v : Q) :
  (classify v = Stopped <-> v < 1.0)
  /\ (classify v = NearlyStopped <-> 1.0 <= v /\ v < 10.0)
  /\ (classify v = MovingForwardAtLowSpeed <-> 10.0 <= v /\ v < 50.0)
  /\ (classify v = MovingForward <-> 50.0 <= v /\ v < 100.0)
  /\ (classify v = MovingForwardAtHighSpeed <-> 100.0 <= v /\ v < 150.0)
  /\ (classify v = FullSpeedForward <-> 150.0 <= v).
Proof.
  unfold classify.
  case_Qltb v 1.0; [|case_Qltb v 10.0; [|case_Qltb v 50.0;
    [|case_Qltb v 100.0; [|case_Qltb v 150.0]]]];
    repeat split; intros; try discriminate; try reflexivity; lra.
Qed.

(** C3.  The classification assigns to every non-negative velocity the one
    band whose interval contains it, the intervals being [0,1), [1,10),
    [10,50), [50,100), [100,150) and [150, infinity): an ordered first match
    over the thresholds 1, 10, 50, 100, 150 in which each threshold belongs
    to the band above it.  The six bands carry six distinct labels. *)
Theorem classify_total_partition :
  (forall v, 0 <= v ->
     (classify v = Stopped <-> 0 <= v /\ v < 1.0)
     /\ (classify v = NearlyStopped <-> 1.0 <= v /\ v < 10.0)
     /\ (classify v = MovingForwardAtLowSpeed <-> 10.0 <= v /\ v < 50.0)
     /\ (classify v = MovingForward <-> 50.0 <= v /\ v < 100.0)
     /\ (classify v = MovingForwardAtHighSpeed <-> 100.0 <= v /\ v < 150.0)
     /\ (classify v = FullSpeedForward <-> 150.0 <= v))
  /\ (forall v, classify v = Spec.first_match Spec.band_table v)
  /\ (forall p, exists rest,
        writeLines_message p
        = (label (classify (velocity p)) ++ rest)%string)
  /\ (forall b1 b2, label b1 = label b2 -> b1 = b2)
  /\ classify 1.0 = NearlyStopped
  /\ classify 10.0 = MovingForwardAtLowSpeed
  /\ classify 50.0 = MovingForward
  /\ classify 100.0 = MovingForwardAtHighSpeed
  /\ classify 150.0 = FullSpeedForward.
Proof.
  split; [|split; [|split; [|split]]].
  - intros v Hv.
    destruct (classify_bands v) as (H1 & H2 & H3 & H4 & H5 & H6).
    repeat split; tauto.
  - apply classify_first_match.
  - intros p. eexists. apply writeLines_message_label.
  - apply label_injective.
  - repeat split; reflexivity.
Qed.

Lemma classify_total_partition_witness :
  classify 10.0 = MovingForwardAtLowSpeed <-> 10.0 <= 10.0 /\ 10.0 < 50.0.
Proof.
  destruct classify_total_partition as (H & _).
  apply (H 10.0). vm_compute. discriminate.
Defined.

(** ** The lag step *)

Lemma lag_quotient (s a : Q) :
  0 <= a -> (s - a) / ((a + 1) * 5) * ((a + 1) * 5) == s - a.
Proof. intros H. field. lra. Qed.

Lemma tick_rpm_lag_actual (p : Player) :
  turbineRpmActualValue (tick_rpm_lag p)
  = Spec.lag_step (turbineRpmSettingValue p) (turbineRpmActualValue p).
Proof. reflexivity. Qed.

Lemma lag_step_below (s a : Q) :
  0 <= a -> a < s -> a < Spec.lag_step s a /\ Spec.lag_step s a < s.
Proof.
  intros Ha Hlt. unfold Spec.lag_step.
  pose proof (lag_quotient s a Ha) as Hq.
  remember ((s - a) / ((a + 1) * 5)) as q. split; nra.
Qed.

Lemma lag_step_above (s a : Q) :
  0 <= a -> s < a -> s < Spec.lag_step s a /\ Spec.lag_step s a < a.
Proof.
  intros Ha Hlt. unfold Spec.lag_step.
  pose proof (lag_quotient s a Ha) as Hq.
  remember ((s - a) / ((a + 1) * 5)) as q. split; nra.
Qed.

Lemma lag_step_fixed (s a : Q) :
  0 <= a -> (Spec.lag_step s a == a <-> a == s).
Proof.
  intros Ha. unfold Spec.lag_step.
  pose proof (lag_quotient s a Ha) as Hq.
  remember ((s - a) / ((a + 1) * 5)) as q. split; intros H; nra.
Qed.

Lemma lag_step_nonneg (s a : Q) :
  0 <= a -> 0 <= s -> 0 <= Spec.lag_step s a.
Proof.
  intros Ha Hs. unfold Spec.lag_step.
  pose proof (lag_quotient s a Ha) as Hq.
  remember ((s - a) / ((a + 1) * 5)) as q. nra.
Qed.



(** ** One tick *)

(** The three fields a tick writes, in closed form. *)
Lemma updateTick_actual (p : Player) (u1 u2 : Q) :
  turbineRpmActualValue (updateTick p u1 u2)
  = Spec.lag_step (turbineRpmSettingValue p) (turbineRpmActualValue p) * 0.998
    + Spec.lag_step (turbineRpmSettingValue p) (turbineRpmActualValue p)
      * 0.998 * u1 * 0.004.
Proof. reflexivity. Qed.

Lemma updateTick_acceleration (p : Player) (u1 u2 : Q) :
  acceleration (updateTick p u1 u2)
  = turbineRpmActualValue (updateTick p u1 u2) / 10.0.
Proof. reflexivity. Qed.

Lemma updateTick_velocity (p : Player) (u1 u2 : Q) :
  velocity (updateTick p u1 u2)
  = (velocity p + acceleration (updateTick p u1 u2) / 10)
    * (0.99 + u2 * 0.003).
Proof. reflexivity. Qed.

Lemma updateTick_untouched (p : Player) (u1 u2 : Q) :
  same_untouched_by_tick p (updateTick p u1 u2).
Proof. repeat split. Qed.

Lemma updateTick_actual_nonneg (p : Player) (u1 u2 : Q) :
  0 <= turbineRpmSettingValue p ->
  0 <= turbineRpmActualValue p ->
  0 <= u1 ->
  0 <= turbineRpmActualValue (updateTick p u1 u2).
Proof.
  intros Hs Ha Hu. rewrite updateTick_actual.
  pose proof (lag_step_nonneg _ _ Ha Hs) as Hl.
  remember (Spec.lag_step (turbineRpmSettingValue p)
                          (turbineRpmActualValue p)) as l.
  nra.
Qed.

Lemma Qdiv_nonneg (a b : Q) : 0 <= a -> 0 < b -> 0 <= a / b.
Proof. intros Ha Hb. apply Qle_shift_div_l; lra. Qed.

Lemma updateTick_velocity_nonneg (p : Player) (u1 u2 : Q) :
  0 <= turbineRpmSettingValue p ->
  0 <= turbineRpmActualValue p ->
  0 <= velocity p ->
  0 <= u1 -> 0 <= u2 ->
  0 <= velocity (updateTick p u1 u2).
Proof.
  intros Hs Ha Hv Hu1 Hu2.
  rewrite updateTick_velocity, updateTick_acceleration.
  pose proof (updateTick_actual_nonneg p u1 u2 Hs Ha Hu1) as Hr.
  remember (turbineRpmActualValue (updateTick p u1 u2)) as r.
  assert (Hacc : 0 <= r / 10.0 / 10).
  { apply Qdiv_nonneg; [apply Qdiv_nonneg|]; lra. }
  remember (r / 10.0 / 10) as acc. nra.
Qed.

Lemma buttonTurbinePlus_untouched (p : Player) :
  turbineRpmActualValue (buttonTurbinePlus p) = turbineRpmActualValue p
  /\ velocity (buttonTurbinePlus p) = velocity p.
Proof.
  unfold buttonTurbinePlus. cbn.
  destruct (Qltb 200 (turbineRpmSettingValue p + 10)); split; reflexivity.
Qed.

Lemma buttonTurbineMinus_untouched (p : Player) :
  turbineRpmActualValue (buttonTurbineMinus p) = turbineRpmActualValue p
  /\ velocity (buttonTurbineMinus p) = velocity p.
Proof.
  unfold buttonTurbineMinus. cbn.
  destruct (Qltb (turbineRpmSettingValue p - 10) 0); split; reflexivity.
Qed.

Lemma state_invariant_init : Spec.state_invariant player_init.
Proof. vm_compute. repeat split; discriminate. Qed.

Lemma state_invariant_event (p : Player) (e : Event) :
  Spec.state_invariant p -> draws_in_range e ->
  Spec.state_invariant (apply_event p e).
Proof.
  intros (Ha & Hv & Hs) He. destruct e; cbn [apply_event].
  - destruct He as [[Hu1 _] [Hu2 _]]. split; [|split].
    + apply updateTick_actual_nonneg; tauto.
    + apply updateTick_velocity_nonneg; tauto.
    + exact Hs.
  - destruct (buttonTurbinePlus_untouched p) as [Ea Ev].
    unfold Spec.state_invariant. rewrite Ea, Ev.
    split; [exact Ha|split; [exact Hv|now apply buttonTurbinePlus_range]].
  - destruct (buttonTurbineMinus_untouched p) as [Ea Ev].
    unfold Spec.state_invariant. rewrite Ea, Ev.
    split; [exact Ha|split; [exact Hv|now apply buttonTurbineMinus_range]].
  - split; [exact Ha|split; [exact Hv|exact Hs]].
  - split; [exact Ha|split; [exact Hv|exact Hs]].
  - split; [exact Ha|split; [exact Hv|exact Hs]].
Qed.

Lemma state_invariant_run (es : list Event) :
  forall p,
    Spec.state_invariant p -> Forall draws_in_range es ->
    Spec.state_invariant (run_player p es).
Proof.
  induction es as [|e es IH]; intros p Hp Hes; [exact Hp|].
  inversion Hes as [|e' es' He Hes']; subst.
  rewrite run_player_cons. apply IH; [|exact Hes'].
  now apply state_invariant_event.
Qed.



(** ** No division by zero *)

Lemma checked_div_nonzero (a b : Q) :
  ~ b == 0 -> checked_div a b = Some (a / b).
Proof.
  intros Hb. unfold checked_div.
  destruct (Qeq_bool b 0) eqn:E; [|reflexivity].
  apply Qeq_bool_iff in E. contradiction.
Qed.

Lemma lag_divisor_positive (a : Q) : 0 <= a -> 0 < (a + 1) * 5.
Proof. intros Ha. lra. Qed.

Lemma updateTick_checked_total (p : Player) (u1 u2 : Q) :
  0 <= turbineRpmActualValue p ->
  updateTick_checked p u1 u2 = Some (updateTick p u1 u2).
Proof.
  intros Ha. unfold updateTick_checked.
  rewrite checked_div_nonzero
    by (pose proof (lag_divisor_positive _ Ha); lra).
  cbn [bind].
  rewrite checked_div_nonzero by (vm_compute; discriminate).
  cbn [bind].
  rewrite checked_div_nonzero by (vm_compute; discriminate).
  reflexivity.
Qed.



(** ** The six updates of a tick *)

Lemma updateTick_refines_spec (p : Player) (u1 u2 : Q) :
  Player_eq (updateTick p u1 u2)
            (Spec.tick p (u1 * 0.004) (0.99 + u2 * 0.003)).
Proof.
  unfold Player_eq. cbn.
  repeat split; try reflexivity; unfold Qdiv; ring.
Qed.

Lemma draw_ranges (u1 u2 : Q) :
  0 <= u1 < 1 -> 0 <= u2 < 1 ->
  (0 <= u1 * 0.004 /\ u1 * 0.004 < 0.004)
  /\ (0.99 <= 0.99 + u2 * 0.003 /\ 0.99 + u2 * 0.003 < 0.993).
Proof. intros H1 H2. repeat split; lra. Qed.

Lemma spec_draws_realised (p : Player) (r1 d : Q) :
  0 <= r1 < 0.004 -> 0.99 <= d < 0.993 ->
  exists u1 u2,
    (0 <= u1 /\ u1 < 1) /\ (0 <= u2 /\ u2 < 1)
    /\ Player_eq (updateTick p u1 u2) (Spec.tick p r1 d).
Proof.
  intros Hr Hd.
  exists (r1 * 250), ((d - 0.99) * (1000 # 3)).
  split; [lra|split; [lra|]].
  unfold Player_eq. cbn.
  repeat split; try reflexivity; unfold Qdiv; ring.
Qed.

(** C1.  A tick is the six assignments of lines 112-121 in that order.
    With r1 = u1 * 0.004 in [0, 0.004) and d = 0.99 + u2 * 0.003 in
    [0.99, 0.993) for the two draws u1, u2 of [0, 1), the state it leaves is
    the one the six updates of section 4.1 describe: turbineRpmActual after
    lag, decay and jitter, acceleration = turbineRpmActual / 10.0, velocity
    increased by acceleration / 10 and then multiplied by d.  Every other
    field keeps its value, and every r1 and d of the two ranges is produced
    by some pair of draws. *)
Theorem updateTick_six_steps (p : Player) (u1 u2 : Q) :
  0 <= u1 < 1 -> 0 <= u2 < 1 ->
  (0 <= u1 * 0.004 /\ u1 * 0.004 < 0.004)
  /\ (0.99 <= 0.99 + u2 * 0.003 /\ 0.99 + u2 * 0.003 < 0.993)
  /\ updateTick p u1 u2
     = tick_velocity_damp u2
         (tick_velocity_add
            (tick_acceleration
               (tick_rpm_jitter u1 (tick_rpm_decay (tick_rpm_lag p)))))
  /\ Player_eq (updateTick p u1 u2)
               (Spec.tick p (u1 * 0.004) (0.99 + u2 * 0.003))
  /\ same_untouched_by_tick p (updateTick p u1 u2)
  /\ (forall r1 d,
        0 <= r1 < 0.004 -> 0.99 <= d < 0.993 ->
        exists v1 v2,
          (0 <= v1 /\ v1 < 1) /\ (0 <= v2 /\ v2 < 1)
          /\ Player_eq (updateTick p v1 v2) (Spec.tick p r1 d)).
Proof.
  intros H1 H2.
  destruct (draw_ranges u1 u2 H1 H2) as [Hr Hd].
  split; [exact Hr|split; [exact Hd|split; [reflexivity|split; [|split]]]].
  - apply updateTick_refines_spec.
  - apply updateTick_untouched.
  - intros r1 d. apply spec_draws_realised.
Qed.

Lemma updateTick_six_steps_witness :
  Player_eq (updateTick (buttonTurbinePlus player_init) (1 # 2) (1 # 4))
            (Spec.tick (buttonTurbinePlus player_init)
                       ((1 # 2) * 0.004) (0.99 + (1 # 4) * 0.003)).
Proof.
  apply (updateTick_six_steps (buttonTurbinePlus player_init) (1 # 2) (1 # 4)).
  - vm_compute. split; congruence.
  - vm_compute. split; congruence.
Defined.

(** ** The status message *)

Lemma step_keeps_message (w : World) (e : Event) (m : string) :
  w_message w = Some m -> e <> EvWriteLinesStart ->
  w_message (step w e) = Some m.
Proof.
  intros Hm He. destruct e; cbn; try assumption.
  - congruence.
  - rewrite Hm. reflexivity.
Qed.

Lemma step_rolled (w : World) (e : Event) (m line : string) :
  w_message w = Some m ->
  In line (w_rolled (step w e)) ->
  In line (w_rolled w) \/ line = (m ++ newline)%string.
Proof.
  intros Hm Hin. destruct e; cbn in Hin; try (left; assumption).
  rewrite Hm in Hin. cbn in Hin.
  apply in_app_or in Hin as [Hin|[Hin|[]]]; [now left|].
  right. symmetry. exact Hin.
Qed.

(** Once [writeLines] has entered its loop with [message = m], every line
    it writes is [m] and a newline, whatever happens to the [Player]. *)
Lemma run_rolled_fixed (es : list Event) :
  forall (w : World) (m line : string),
    w_message w = Some m ->
    ~ In EvWriteLinesStart es ->
    In line (w_rolled (run w es)) ->
    In line (w_rolled w) \/ line = (m ++ newline)%string.
Proof.
  induction es as [|e es IH]; intros w m line Hm Hno Hin.
  - now left.
  - assert (He : e <> EvWriteLinesStart)
      by (intros ->; apply Hno; now left).
    assert (Hes : ~ In EvWriteLinesStart es)
      by (intros H; apply Hno; now right).
    change (run w (e :: es)) with (run (step w e) es) in Hin.
    destruct (IH (step w e) m line
                 (step_keeps_message w e m Hm He) Hes Hin) as [H|H].
    + exact (step_rolled w e m line Hm H).
    + now right.
Qed.

(** C2 fails on the code.  In [run_under_way] the line written when the
    ticker of [writeLines] fires is the message of the state in which the
    goroutine started, velocity 0, while the velocity at that moment is
    above 1 and its message would be another one; and in general every line
    written after the start is that first message.  In the last branch the
    message carries no velocity at all. *)
Theorem writeLines_message_not_refreshed :
  w_rolled (run world_init run_under_way)
  = [("Stopped.0.0000" ++ newline)%string]
  /\ 1.0 <= velocity (w_player (run world_init run_under_way))
  /\ classify (velocity (w_player (run world_init run_under_way)))
     = NearlyStopped
  /\ writeLines_message (w_player (run world_init run_under_way))
     = "Nearly Stopped.1.1944"%string
  /\ (forall es line,
        ~ In EvWriteLinesStart es ->
        In line (w_rolled (run (step world_init EvWriteLinesStart) es)) ->
        line = ("Stopped.0.0000" ++ newline)%string)
  /\ writeLines_message (set_velocity player_init 150.0)
     = "Full speed forward."%string.
Proof.
  split; [|split; [|split; [|split; [|split]]]].
  - vm_compute. reflexivity.
  - vm_compute. discriminate.
  - vm_compute. reflexivity.
  - vm_compute. reflexivity.
  - intros es line Hno Hin.
    destruct (run_rolled_fixed es (step world_init EvWriteLinesStart)
                "Stopped.0.0000"%string line eq_refl Hno Hin) as [H|H].
    + destruct H.
    + exact H.
  - vm_compute. reflexivity.
Qed.

Lemma writeLines_message_not_refreshed_witness :
  nth 1
      (w_rolled
         (run (step world_init EvWriteLinesStart)
              [EvTurbinePlus; EvUpdateTick 0 0; EvWriteLinesTick;
               EvUpdateTick 0 0; EvWriteLinesTick]))
      EmptyString
  = ("Stopped.0.0000" ++ newline)%string.
Proof.
  destruct writeLines_message_not_refreshed as (_ & _ & _ & _ & H & _).
  apply (H [EvTurbinePlus; EvUpdateTick 0 0; EvWriteLinesTick;
            EvUpdateTick 0 0; EvWriteLinesTick]).
  - cbn. intros [E|[E|[E|[E|[E|[]]]]]]; discriminate E.
  - apply nth_In. vm_compute. reflexivity.
Defined.

(** ** The concrete values on binary64

    The values the properties above name, computed with the rounding of
    [float64]. *)

(** The stored setpoints are the multiples of 10 up to 200, and both
    throttle buttons map them to stored setpoints. *)
Lemma float64_setpoints :
  Float64.setpoints
  = [0; 10; 20; 30; 40; 50; 60; 70; 80; 90; 100; 110; 120; 130; 140; 150;
     160; 170; 180; 190; 200]%float
  /\ map Float64.buttonTurbinePlus Float64.setpoints
     = tl Float64.setpoints ++ [200%float]
  /\ map Float64.buttonTurbineMinus Float64.setpoints
     = 0%float :: removelast Float64.setpoints.
Proof. repeat split; vm_compute; reflexivity. Qed.

Lemma float64_twenty_presses :
  Nat.iter 20 Float64.buttonTurbinePlus 0%float = 200%float.
Proof. vm_compute. reflexivity. Qed.

(** "+ 10" then "- 10" restores each stored setpoint from 10 to 190. *)
Lemma float64_increase_then_decrease :
  map (fun s => Float64.buttonTurbineMinus (Float64.buttonTurbinePlus s))
      (removelast (tl Float64.setpoints))
  = removelast (tl Float64.setpoints).
Proof. vm_compute. reflexivity. Qed.

(** This is a fact about stored setpoints: on a binary64 number that no run
    stores, the sum with 10 can round. *)
Lemma float64_rounding_off_grid :
  Float64.buttonTurbineMinus
    (Float64.buttonTurbinePlus 0x1.e000000000001p+3%float)
  = 15%float.
Proof. vm_compute. reflexivity. Qed.

(** Likewise the strict progress of the lag step is a fact of the exact
    law: from the binary64 number next below the setpoint 200 the increment
    is smaller than the spacing of the numbers there and the sum rounds
    back. *)
Lemma float64_lag_step_rounding :
  (next_down 200 <? 200)%float = true
  /\ Float64.tick_rpm_lag 200 (next_down 200) = next_down 200.
Proof. split; vm_compute; reflexivity. Qed.

Lemma float64_rudderLeft_presses :
  Nat.iter 3 Float64.rudderLeftButtonObj
           (Float64.rudderAngle Float64.player_init) = 27.5%float
  /\ Nat.iter 14 Float64.rudderLeftButtonObj
              (Float64.rudderAngle Float64.player_init) = 0%float
  /\ Nat.iter 15 Float64.rudderLeftButtonObj
              (Float64.rudderAngle Float64.player_init) = 0%float.
Proof. repeat split; vm_compute; reflexivity. Qed.

Lemma float64_classify_thresholds :
  map Float64.classify [1.0; 10.0; 50.0; 100.0; 150.0]%float
  = [NearlyStopped; MovingForwardAtLowSpeed; MovingForward;
     MovingForwardAtHighSpeed; FullSpeedForward].
Proof. vm_compute. reflexivity. Qed.

(** The physical part of [run_under_way]: setpoint 200, three ticks with
    both draws 0.  The velocity has left the first band. *)
Lemma float64_run_under_way :
  Float64.classify
    (Float64.velocity
       (Nat.iter 3 (fun p => Float64.updateTick p 0 0)
                 (Float64.mkPlayer 200 0 0 0 35)))
  = NearlyStopped.
Proof. vm_compute. reflexivity. Qed.

(** ** The display samplers *)

Lemma int_of_float64_floor (v : Q) : 0 <= v -> int_of_float64 v = Qfloor v.
Proof.
  destruct v as [n d]. unfold Qle, int_of_float64, Qfloor. cbn.
  intros Hn. apply Z.quot_div_nonneg; lia.
Qed.

(** The clamped value of a sampler. *)
Lemma clamp_cases (v hi : Q) :
  0 <= hi ->
  0 <= mathMax (mathMin v hi) 0 <= hi
  /\ (v <= 0 -> mathMax (mathMin v hi) 0 == 0)
  /\ (hi <= v -> mathMax (mathMin v hi) 0 == hi)
  /\ (0 <= v <= hi -> mathMax (mathMin v hi) 0 == v).
Proof.
  intros Hhi. split_minmax; repeat split; intros; lra.
Qed.

(** What a gauge shows of a value [v] on a scale of [hiZ]: the integer part
    of [v], saturated at the two ends of the scale. *)
Lemma clamp_int (v hi : Q) (hiZ : Z) :
  hi == inject_Z hiZ -> (0 <= hiZ)%Z ->
  (0 <= int_of_float64 (mathMax (mathMin v hi) 0) <= hiZ)%Z
  /\ (v <= 0 -> int_of_float64 (mathMax (mathMin v hi) 0) = 0%Z)
  /\ (hi <= v -> int_of_float64 (mathMax (mathMin v hi) 0) = hiZ)
  /\ (0 <= v <= hi ->
      inject_Z (int_of_float64 (mathMax (mathMin v hi) 0)) <= v
      /\ v < inject_Z (int_of_float64 (mathMax (mathMin v hi) 0)) + 1).
Proof.
  intros Hhi HhiZ.
  assert (Hhi0 : 0 <= hi).
  { rewrite Hhi. change 0 with (inject_Z 0). rewrite <- Zle_Qle. exact HhiZ. }
  destruct (clamp_cases v hi Hhi0) as ([Hc0 Hc1] & Hlow & Hhigh & Hmid).
  remember (mathMax (mathMin v hi) 0) as c.
  rewrite (int_of_float64_floor c Hc0).
  split; [|split; [|split]].
  - split.
    + rewrite <- (Qfloor_Z 0). now apply Qfloor_resp_le.
    + rewrite <- (Qfloor_Z hiZ). apply Qfloor_resp_le. now rewrite <- Hhi.
  - intros Hv. rewrite (Hlow Hv). apply (Qfloor_Z 0).
  - intros Hv. rewrite (Hhigh Hv), Hhi. apply Qfloor_Z.
  - intros Hv. rewrite (Hmid Hv). split.
    + apply Qfloor_le.
    + pose proof (Qlt_floor v) as Hlt.
      rewrite inject_Z_plus in Hlt. exact Hlt.
Qed.

(** [rpmSettingGauge] never hands its gauge an amount outside the scale: for
    every state the amount done is between 0 and the total 200, it is 0 for
    a setpoint at or below 0, 200 for a setpoint at or above 200, and the
    integer part of the setpoint in between. *)
Theorem rpmSettingGauge_within_scale (p : Player) :
  snd (rpmSettingGauge_tick p) = 200%Z
  /\ (0 <= fst (rpmSettingGauge_tick p) <= snd (rpmSettingGauge_tick p))%Z
  /\ (turbineRpmSettingValue p <= 0 -> fst (rpmSettingGauge_tick p) = 0%Z)
  /\ (200 <= turbineRpmSettingValue p ->
      fst (rpmSettingGauge_tick p) = 200%Z)
  /\ (0 <= turbineRpmSettingValue p <= 200 ->
      inject_Z (fst (rpmSettingGauge_tick p)) <= turbineRpmSettingValue p
      /\ turbineRpmSettingValue p
         < inject_Z (fst (rpmSettingGauge_tick p)) + 1).
Proof.
  unfold rpmSettingGauge_tick. cbn [fst snd].
  split; [reflexivity|].
  destruct (clamp_int (turbineRpmSettingValue p) 200.0 200)
    as (H1 & H2 & H3 & H4); [reflexivity|lia|].
  assert (H200 : 200.0 == 200) by reflexivity.
  split; [exact H1|split; [exact H2|split]].
  - intros H. apply H3. lra.
  - intros H. apply H4. lra.
Qed.

Lemma rpmSettingGauge_within_scale_witness :
  inject_Z (fst (rpmSettingGauge_tick (buttonTurbinePlus player_init)))
  <= turbineRpmSettingValue (buttonTurbinePlus player_init)
  /\ turbineRpmSettingValue (buttonTurbinePlus player_init)
     < inject_Z (fst (rpmSettingGauge_tick (buttonTurbinePlus player_init)))
       + 1.
Proof.
  apply (rpmSettingGauge_within_scale (buttonTurbinePlus player_init)).
  vm_compute. split; discriminate.
Defined.

(** [rudderAngleGauge] likewise, on a scale of 70: the gauge shows the
    integer part of the rudder angle, so the half of an angle such as 32.5
    is dropped. *)
Theorem rudderAngleGauge_within_scale (p : Player) :
  snd (rudderAngleGauge_tick p) = 70%Z
  /\ (0 <= fst (rudderAngleGauge_tick p) <= snd (rudderAngleGauge_tick p))%Z
  /\ (rudderAngle p <= 0 -> fst (rudderAngleGauge_tick p) = 0%Z)
  /\ (70 <= rudderAngle p -> fst (rudderAngleGauge_tick p) = 70%Z)
  /\ (0 <= rudderAngle p <= 70 ->
      inject_Z (fst (rudderAngleGauge_tick p)) <= rudderAngle p
      /\ rudderAngle p < inject_Z (fst (rudderAngleGauge_tick p)) + 1).
Proof.
  unfold rudderAngleGauge_tick. cbn [fst snd].
  split; [reflexivity|].
  destruct (clamp_int (rudderAngle p) 70.0 70)
    as (H1 & H2 & H3 & H4); [reflexivity|lia|].
  assert (H70 : 70.0 == 70) by reflexivity.
  split; [exact H1|split; [exact H2|split]].
  - intros H. apply H3. lra.
  - intros H. apply H4. lra.
Qed.

Lemma rudderAngleGauge_within_scale_witness :
  inject_Z (fst (rudderAngleGauge_tick (rudderLeftButtonObj player_init)))
  <= rudderAngle (rudderLeftButtonObj player_init)
  /\ rudderAngle (rudderLeftButtonObj player_init)
     < inject_Z (fst (rudderAngleGauge_tick (rudderLeftButtonObj player_init)))
       + 1.
Proof.
  apply (rudderAngleGauge_within_scale (rudderLeftButtonObj player_init)).
  vm_compute. split; discriminate.
Defined.

Lemma rpmMeterDonut_fields (p : Player) :
  fst (fst (rpmMeterDonut_tick p))
  = int_of_float64 (mathMax (mathMin (turbineRpmActualValue p) 200.0) 0)
  /\ snd (fst (rpmMeterDonut_tick p)) = 200%Z
  /\ snd (rpmMeterDonut_tick p)
     = if Qltb (mathMax (mathMin (turbineRpmActualValue p) 200.0) 0) 140
       then ColorYellow else ColorRed.
Proof.
  unfold rpmMeterDonut_tick.
  destruct (Qltb (mathMax (mathMin (turbineRpmActualValue p) 200.0) 0) 140);
    repeat split.
Qed.



(** ** More on the throttle buttons *)

Lemma buttonTurbinePlus_frame (p : Player) :
  same_but_setting p (buttonTurbinePlus p).
Proof.
  unfold buttonTurbinePlus. cbn.
  destruct (Qltb 200 (turbineRpmSettingValue p + 10)); repeat split.
Qed.

Lemma buttonTurbineMinus_frame (p : Player) :
  same_but_setting p (buttonTurbineMinus p).
Proof.
  unfold buttonTurbineMinus. cbn.
  destruct (Qltb (turbineRpmSettingValue p - 10) 0); repeat split.
Qed.

(** Each button callback writes one field: the throttle buttons the
    setpoint, the rudder button the rudder angle.  Every other field,
    the physical ones included, is left as it was. *)
Theorem buttons_write_one_field (p : Player) :
  same_but_setting p (buttonTurbinePlus p)
  /\ same_but_setting p (buttonTurbineMinus p)
  /\ same_but_rudderAngle p (rudderLeftButtonObj p).
Proof.
  split; [|split].
  - apply buttonTurbinePlus_frame.
  - apply buttonTurbineMinus_frame.
  - repeat split.
Qed.

Lemma inject_Z_10 (k : Z) : inject_Z (10 * k) == 10 * inject_Z k.
Proof. rewrite inject_Z_mult. reflexivity. Qed.

Lemma inject_Z_range (k lo hi : Z) :
  (lo <= k <= hi)%Z -> inject_Z lo <= inject_Z k <= inject_Z hi.
Proof. intros [H1 H2]. split; rewrite <- Zle_Qle; assumption. Qed.

Lemma buttonTurbinePlus_grid (p : Player) :
  setpoint_on_grid p -> setpoint_on_grid (buttonTurbinePlus p).
Proof.
  intros (k & Hk & Hs).
  exists (Z.min (k + 1) 20). split; [lia|].
  rewrite buttonTurbinePlus_setting. unfold Spec.increaseThrottle.
  rewrite inject_Z_10 in *.
  destruct (Z.min_spec (k + 1) 20) as [[Hlt ->]|[Hge ->]].
  - pose proof (inject_Z_range k 0 19 ltac:(lia)) as Hr.
    change (inject_Z 0) with 0 in Hr. change (inject_Z 19) with 19 in Hr.
    rewrite inject_Z_plus. change (inject_Z 1) with 1.
    remember (inject_Z k) as x.
    split_minmax; lra.
  - pose proof (inject_Z_range k 19 20 ltac:(lia)) as Hr.
    change (inject_Z 19) with 19 in Hr. change (inject_Z 20) with 20 in *.
    remember (inject_Z k) as x.
    split_minmax; lra.
Qed.

Lemma buttonTurbineMinus_grid (p : Player) :
  setpoint_on_grid p -> setpoint_on_grid (buttonTurbineMinus p).
Proof.
  intros (k & Hk & Hs).
  exists (Z.max (k - 1) 0). split; [lia|].
  rewrite buttonTurbineMinus_setting. unfold Spec.decreaseThrottle.
  rewrite inject_Z_10 in *.
  destruct (Z.max_spec (k - 1) 0) as [[Hlt ->]|[Hge ->]].
  - pose proof (inject_Z_range k 0 1 ltac:(lia)) as Hr.
    change (inject_Z 1) with 1 in Hr. change (inject_Z 0) with 0 in *.
    remember (inject_Z k) as x.
    split_minmax; lra.
  - pose proof (inject_Z_range k 1 20 ltac:(lia)) as Hr.
    change (inject_Z 1) with 1 in Hr. change (inject_Z 20) with 20 in Hr.
    unfold Z.sub. rewrite inject_Z_plus, inject_Z_opp.
    change (inject_Z 1) with 1.
    remember (inject_Z k) as x.
    split_minmax; lra.
Qed.

Lemma apply_event_grid (p : Player) (e : Event) :
  setpoint_on_grid p -> setpoint_on_grid (apply_event p e).
Proof.
  intros H. destruct e; cbn [apply_event]; try exact H.
  - now apply buttonTurbinePlus_grid.
  - now apply buttonTurbineMinus_grid.
Qed.

Lemma run_player_grid (es : list Event) :
  forall p, setpoint_on_grid p -> setpoint_on_grid (run_player p es).
Proof.
  induction es as [|e es IH]; intros p Hp; [exact Hp|].
  rewrite run_player_cons. apply IH. now apply apply_event_grid.
Qed.

Lemma player_init_grid : setpoint_on_grid player_init.
Proof. exists 0%Z. split; [lia|reflexivity]. Qed.

(** In every run of the program, whatever the events and the draws, the
    setpoint is one of the 21 values 0, 10, ..., 200, and the setpoint gauge
    shows it without loss: the amount it hands to the gauge is the setpoint
    itself. *)
Theorem setpoint_stays_on_grid (es : list Event) :
  exists k : Z,
    (0 <= k <= 20)%Z
    /\ turbineRpmSettingValue (run_player player_init es)
       == inject_Z (10 * k)
    /\ fst (rpmSettingGauge_tick (run_player player_init es)) = (10 * k)%Z.
Proof.
  destruct (run_player_grid es player_init player_init_grid)
    as (k & Hk & Hs).
  exists k. split; [exact Hk|split; [exact Hs|]].
  unfold rpmSettingGauge_tick. cbn [fst].
  pose proof (inject_Z_range (10 * k) 0 200 ltac:(lia)) as Hr.
  change (inject_Z 0) with 0 in Hr. change (inject_Z 200) with 200 in Hr.
  assert (Hhi : 0 <= 200.0) by (vm_compute; discriminate).
  assert (H200 : 200.0 == 200) by reflexivity.
  destruct (clamp_cases (turbineRpmSettingValue (run_player player_init es))
                        200.0 Hhi) as ([Hc0 _] & _ & _ & Hmid).
  rewrite (int_of_float64_floor _ Hc0).
  rewrite Hmid by (rewrite Hs; lra).
  rewrite Hs. apply Qfloor_Z.
Qed.

(** [n] presses saturate: from a setpoint at most 200, [n] presses of
    "+ 10" give min(setpoint + 10 n, 200). *)
Lemma plus_presses_saturate (n : nat) :
  forall p,
    turbineRpmSettingValue p <= 200 ->
    turbineRpmSettingValue (run_player p (repeat EvTurbinePlus n))
    == Qmin (turbineRpmSettingValue p + 10 * inject_Z (Z.of_nat n)) 200.
Proof.
  induction n as [|n IH]; intros p Hp.
  - change (inject_Z (Z.of_nat 0)) with 0.
    change (run_player p (repeat EvTurbinePlus 0)) with p.
    split_minmax; lra.
  - rewrite Nat2Z.inj_succ. unfold Z.succ.
    rewrite inject_Z_plus. change (inject_Z 1) with 1.
    assert (Hn : 0 <= inject_Z (Z.of_nat n)).
    { change 0 with (inject_Z 0). rewrite <- Zle_Qle. lia. }
    cbn [repeat]. rewrite run_player_cons. cbn [apply_event].
    pose proof (buttonTurbinePlus_setting p) as Hs.
    unfold Spec.increaseThrottle in Hs.
    assert (Hle : turbineRpmSettingValue (buttonTurbinePlus p) <= 200).
    { rewrite Hs. apply Q.le_min_r. }
    rewrite (IH _ Hle).
    remember (turbineRpmSettingValue (buttonTurbinePlus p)) as s'.
    remember (inject_Z (Z.of_nat n)) as x.
    revert Hs. split_minmax; intros Hs; lra.
Qed.

Lemma minus_presses_saturate (n : nat) :
  forall p,
    0 <= turbineRpmSettingValue p ->
    turbineRpmSettingValue (run_player p (repeat EvTurbineMinus n))
    == Qmax (turbineRpmSettingValue p - 10 * inject_Z (Z.of_nat n)) 0.
Proof.
  induction n as [|n IH]; intros p Hp.
  - change (inject_Z (Z.of_nat 0)) with 0.
    change (run_player p (repeat EvTurbineMinus 0)) with p.
    split_minmax; lra.
  - rewrite Nat2Z.inj_succ. unfold Z.succ.
    rewrite inject_Z_plus. change (inject_Z 1) with 1.
    assert (Hn : 0 <= inject_Z (Z.of_nat n)).
    { change 0 with (inject_Z 0). rewrite <- Zle_Qle. lia. }
    cbn [repeat]. rewrite run_player_cons. cbn [apply_event].
    pose proof (buttonTurbineMinus_setting p) as Hs.
    unfold Spec.decreaseThrottle in Hs.
    assert (Hle : 0 <= turbineRpmSettingValue (buttonTurbineMinus p)).
    { rewrite Hs. apply Q.le_max_r. }
    rewrite (IH _ Hle).
    remember (turbineRpmSettingValue (buttonTurbineMinus p)) as s'.
    remember (inject_Z (Z.of_nat n)) as x.
    revert Hs. split_minmax; intros Hs; lra.
Qed.



(** At the two ends the buttons do not undo each other: from a setpoint
    above 190, "+ 10" then "- 10" leaves 190, and from a setpoint below 10,
    "- 10" then "+ 10" leaves 10. *)
Theorem throttle_ends_not_restored (p : Player) :
  (190 < turbineRpmSettingValue p ->
   turbineRpmSettingValue (buttonTurbineMinus (buttonTurbinePlus p)) == 190)
  /\ (turbineRpmSettingValue p < 10 ->
      turbineRpmSettingValue (buttonTurbinePlus (buttonTurbineMinus p))
      == 10).
Proof.
  split; intros H.
  - rewrite buttonTurbineMinus_setting. unfold Spec.decreaseThrottle.
    pose proof (buttonTurbinePlus_setting p) as Hs.
    unfold Spec.increaseThrottle in Hs.
    remember (turbineRpmSettingValue (buttonTurbinePlus p)) as s'.
    revert Hs. split_minmax; intros Hs; lra.
  - rewrite buttonTurbinePlus_setting. unfold Spec.increaseThrottle.
    pose proof (buttonTurbineMinus_setting p) as Hs.
    unfold Spec.decreaseThrottle in Hs.
    remember (turbineRpmSettingValue (buttonTurbineMinus p)) as s'.
    revert Hs. split_minmax; intros Hs; lra.
Qed.

Lemma throttle_ends_not_restored_witness :
  turbineRpmSettingValue
    (buttonTurbinePlus (buttonTurbineMinus player_init)) == 10.
Proof.
  apply (throttle_ends_not_restored player_init).
  vm_compute. reflexivity.
Defined.

(** ** More on the rudder button *)

Lemma run_player_app (p : Player) (es fs : list Event) :
  run_player p (es ++ fs) = run_player (run_player p es) fs.
Proof. apply fold_left_app. Qed.

Lemma count_events_app (f : Event -> bool) (es fs : list Event) :
  count_events f (es ++ fs) = (count_events f es + count_events f fs)%nat.
Proof. unfold count_events. now rewrite filter_app, length_app. Qed.

Lemma rudderLeft_angle_from_range (p : Player) :
  0 <= rudderAngle p <= 70 ->
  rudderAngle (rudderLeftButtonObj p) == Qmax (rudderAngle p - 2.5) 0.
Proof.
  intros H. unfold rudderLeftButtonObj. cbn.
  split_minmax; lra.
Qed.

Lemma rudder_run_closed_form (es : list Event) :
  forall p,
    0 <= rudderAngle p <= 70 ->
    rudderAngle (run_player p es)
    == Qmax (rudderAngle p
             - 2.5 * inject_Z (Z.of_nat (count_events is_rudderLeft es))) 0.
Proof.
  induction es as [|e es IH]; intros p Hp.
  - change (run_player p []) with p.
    change (inject_Z (Z.of_nat (count_events is_rudderLeft []))) with 0.
    split_minmax; lra.
  - rewrite run_player_cons.
    rewrite (IH _ (rudderAngle_event_range p e Hp)).
    assert (Hn : 0 <= inject_Z (Z.of_nat (count_events is_rudderLeft es))).
    { change 0 with (inject_Z 0). rewrite <- Zle_Qle. lia. }
    assert (D : e = EvRudderLeft \/ e <> EvRudderLeft)
      by (destruct e; (now left) || (right; discriminate)).
    destruct D as [->|D].
    + change (count_events is_rudderLeft (EvRudderLeft :: es))
        with (S (count_events is_rudderLeft es)).
      rewrite Nat2Z.inj_succ. unfold Z.succ.
      rewrite inject_Z_plus. change (inject_Z 1) with 1.
      cbn [apply_event].
      pose proof (rudderLeft_angle_from_range p Hp) as Hs.
      remember (rudderAngle (rudderLeftButtonObj p)) as r'.
      remember (inject_Z (Z.of_nat (count_events is_rudderLeft es))) as x.
      revert Hs. split_minmax; intros Hs; lra.
    + rewrite (rudderAngle_other_events p e D).
      replace (count_events is_rudderLeft (e :: es))
        with (count_events is_rudderLeft es); [reflexivity|].
      unfold count_events. cbn [filter].
      destruct e; try reflexivity. congruence.
Qed.

(** In every run the rudder angle is fixed by the number k of presses of
    "L" alone: it is max(35 - 2.5 k, 0).  Hence it never rises during a
    run, it is 0 exactly from the fourteenth press on, and nothing in the
    program brings it back up. *)
Theorem rudder_angle_counts_presses (es : list Event) :
  rudderAngle (run_player player_init es)
  == Qmax (35 - 2.5 * inject_Z (Z.of_nat (count_events is_rudderLeft es))) 0
  /\ (rudderAngle (run_player player_init es) == 0
      <-> (14 <= count_events is_rudderLeft es)%nat)
  /\ (forall fs,
        rudderAngle (run_player player_init (es ++ fs))
        <= rudderAngle (run_player player_init es)).
Proof.
  assert (Hinit : 0 <= rudderAngle player_init <= 70)
    by (vm_compute; split; discriminate).
  assert (H35 : rudderAngle player_init == 35) by reflexivity.
  pose proof (rudder_run_closed_form es player_init Hinit) as Hes.
  rewrite H35 in Hes.
  split; [exact Hes|split].
  - rewrite Hes.
    remember (count_events is_rudderLeft es) as k.
    split; intros Hzero.
    + destruct (Nat.le_gt_cases 14 k) as [Hk|Hk]; [exact Hk|exfalso].
      assert (Hx : inject_Z (Z.of_nat k) <= 13).
      { change 13 with (inject_Z 13). rewrite <- Zle_Qle. lia. }
      remember (inject_Z (Z.of_nat k)) as x.
      revert Hzero. split_minmax; intros Hzero; lra.
    + assert (Hx : 14 <= inject_Z (Z.of_nat k)).
      { change 14 with (inject_Z 14). rewrite <- Zle_Qle. lia. }
      remember (inject_Z (Z.of_nat k)) as x.
      split_minmax; lra.
  - intros fs.
    pose proof (rudder_run_closed_form (es ++ fs) player_init Hinit) as Hfs.
    rewrite H35 in Hfs. rewrite Hfs, Hes, count_events_app.
    rewrite Nat2Z.inj_add, inject_Z_plus.
    assert (Hy : 0 <= inject_Z (Z.of_nat (count_events is_rudderLeft fs))).
    { change 0 with (inject_Z 0). rewrite <- Zle_Qle. lia. }
    remember (inject_Z (Z.of_nat (count_events is_rudderLeft es))) as x.
    remember (inject_Z (Z.of_nat (count_events is_rudderLeft fs))) as y.
    split_minmax; lra.
Qed.

Lemma rudder_angle_counts_presses_witness :
  rudderAngle (run_player player_init (repeat EvRudderLeft 14)) == 0.
Proof.
  destruct (rudder_angle_counts_presses (repeat EvRudderLeft 14))
    as (_ & Hzero & _).
  apply Hzero. vm_compute. lia.
Defined.

(** ** More on the status sampler *)

Lemma step_player (w : World) (e : Event) :
  w_player (step w e) = apply_event (w_player w) e.
Proof.
  destruct e; try reflexivity.
  cbn. destruct (w_message w); reflexivity.
Qed.

Lemma run_cons (w : World) (e : Event) (es : list Event) :
  run w (e :: es) = run (step w e) es.
Proof. reflexivity. Qed.

Lemma run_app (w : World) (es fs : list Event) :
  run w (es ++ fs) = run (run w es) fs.
Proof. apply fold_left_app. Qed.

Lemma run_player_of_world (es : list Event) :
  forall w, w_player (run w es) = run_player (w_player w) es.
Proof.
  induction es as [|e es IH]; intros w; [reflexivity|].
  rewrite run_cons, IH, step_player. reflexivity.
Qed.

Lemma run_player_skip_writeLines (es : list Event) :
  forall p,
    run_player p es
    = run_player p (filter (fun e => negb (is_writeLines e)) es).
Proof.
  induction es as [|e es IH]; intros p; [reflexivity|].
  rewrite run_player_cons. cbn [filter].
  destruct e; cbn [is_writeLines negb]; rewrite ?run_player_cons;
    cbn [apply_event]; apply IH.
Qed.

(** The status sampler is a reader: the [Player] a run leaves is the one
    the same run leaves with every [writeLines] event taken out, whenever
    the goroutine started and however often its ticker fired. *)
Theorem writeLines_leaves_player (w : World) (es : list Event) :
  w_player (run w es)
  = run_player (w_player w) (filter (fun e => negb (is_writeLines e)) es).
Proof.
  rewrite run_player_of_world. apply run_player_skip_writeLines.
Qed.

Lemma run_before_start (es : list Event) :
  forall w,
    w_message w = None ->
    ~ In EvWriteLinesStart es ->
    w_message (run w es) = None /\ w_rolled (run w es) = w_rolled w.
Proof.
  induction es as [|e es IH]; intros w Hm Hno; [now split|].
  assert (He : e <> EvWriteLinesStart) by (intros ->; apply Hno; now left).
  assert (Hes : ~ In EvWriteLinesStart es)
    by (intros H; apply Hno; now right).
  rewrite run_cons.
  assert (Hstep : w_message (step w e) = None
                  /\ w_rolled (step w e) = w_rolled w).
  { destruct e; cbn; try (now split); try congruence.
    rewrite Hm. now split. }
  destruct Hstep as [Hm' Hr'].
  destruct (IH (step w e) Hm' Hes) as [H1 H2].
  split; [exact H1|]. now rewrite H2.
Qed.

Lemma run_after_start (es : list Event) :
  forall w m,
    w_message w = Some m ->
    ~ In EvWriteLinesStart es ->
    w_rolled (run w es)
    = w_rolled w
        ++ repeat (m ++ newline)%string (count_events is_writeLinesTick es).
Proof.
  induction es as [|e es IH]; intros w m Hm Hno.
  - cbn. now rewrite app_nil_r.
  - assert (He : e <> EvWriteLinesStart)
      by (intros ->; apply Hno; now left).
    assert (Hes : ~ In EvWriteLinesStart es)
      by (intros H; apply Hno; now right).
    rewrite run_cons.
    rewrite (IH (step w e) m (step_keeps_message w e m Hm He) Hes).
    destruct e; try reflexivity; try congruence.
    cbn [step]. rewrite Hm. cbn [w_rolled].
    change (count_events is_writeLinesTick (EvWriteLinesTick :: es))
      with (S (count_events is_writeLinesTick es)).
    cbn [repeat]. rewrite <- app_assoc. reflexivity.
Qed.

(** The whole output of [writeLines] in a run in which the goroutine is
    started once: nothing is written before the start, and after it one
    line per ticker event, each of them the message of the state in which
    the goroutine started followed by a newline. *)
Theorem writeLines_output (before after : list Event) :
  ~ In EvWriteLinesStart before ->
  ~ In EvWriteLinesStart after ->
  w_rolled (run world_init before) = []
  /\ w_rolled (run world_init (before ++ EvWriteLinesStart :: after))
     = repeat
         (writeLines_message (run_player player_init before) ++ newline)%string
         (count_events is_writeLinesTick after).
Proof.
  intros Hb Ha.
  destruct (run_before_start before world_init eq_refl Hb) as [Hm Hr].
  split; [exact Hr|].
  rewrite run_app, run_cons.
  rewrite (run_after_start after (step (run world_init before)
                                       EvWriteLinesStart)
             (writeLines_message (w_player (run world_init before))));
    [|reflexivity|exact Ha].
  cbn [step w_rolled]. rewrite Hr.
  rewrite run_player_of_world. reflexivity.
Qed.

Lemma writeLines_output_witness :
  w_rolled
    (run world_init
         ([EvTurbinePlus; EvWriteLinesTick]
            ++ EvWriteLinesStart
            :: [EvUpdateTick 0 0; EvWriteLinesTick; EvWriteLinesTick]))
  = repeat
      (writeLines_message
         (run_player player_init [EvTurbinePlus; EvWriteLinesTick])
         ++ newline)%string
      (count_events is_writeLinesTick
                    [EvUpdateTick 0 0; EvWriteLinesTick; EvWriteLinesTick]).
Proof.
  apply (writeLines_output
           [EvTurbinePlus; EvWriteLinesTick]
           [EvUpdateTick 0 0; EvWriteLinesTick; EvWriteLinesTick]).
  - cbn. intros [E|[E|[]]]; discriminate E.
  - cbn. intros [E|[E|[E|[]]]]; discriminate E.
Defined.

(** The band can be read back from the message: two states whose messages
    are equal are in the same band. *)
Theorem writeLines_message_determines_band (p q : Player) :
  writeLines_message p = writeLines_message q ->
  classify (velocity p) = classify (velocity q).
Proof.
  rewrite (writeLines_message_label p), (writeLines_message_label q).
  destruct (classify (velocity p)), (classify (velocity q));
    cbn; intros H; try reflexivity; discriminate H.
Qed.

Lemma writeLines_message_determines_band_witness :
  classify (velocity (set_velocity player_init (1 # 3)))
  = classify (velocity (set_velocity player_init (2 # 6))).
Proof.
  apply writeLines_message_determines_band.
  vm_compute. reflexivity.
Defined.

(** ** More on the tick *)

(** The lag step lands between the actual rpm and the setpoint. *)
Lemma lag_step_between (s a : Q) :
  0 <= a ->
  Qmin a s <= Spec.lag_step s a <= Qmax a s.
Proof.
  intros Ha.
  destruct (Q_dec a s) as [[Hlt|Hgt]|Heq].
  - destruct (lag_step_below s a Ha Hlt). split_minmax; lra.
  - destruct (lag_step_above s a Ha Hgt). split_minmax; lra.
  - pose proof (proj2 (lag_step_fixed s a Ha) Heq) as Hfix.
    split_minmax; lra.
Qed.

Lemma updateTick_bounds (p : Player) (u1 u2 : Q) :
  0 <= turbineRpmActualValue p ->
  0 <= turbineRpmSettingValue p ->
  0 <= velocity p ->
  0 <= u1 < 1 -> 0 <= u2 < 1 ->
  (0.998 * Qmin (turbineRpmActualValue p) (turbineRpmSettingValue p)
   <= turbineRpmActualValue (updateTick p u1 u2)
   /\ turbineRpmActualValue (updateTick p u1 u2)
      <= 1.001992 * Qmax (turbineRpmActualValue p) (turbineRpmSettingValue p))
  /\ (0.99 * velocity p <= velocity (updateTick p u1 u2)
      /\ velocity (updateTick p u1 u2)
         <= 0.993 * (velocity p
                     + turbineRpmActualValue (updateTick p u1 u2) / 100)).
Proof.
  intros Ha Hs Hv Hu1 Hu2.
  pose proof (updateTick_actual_nonneg p u1 u2 Hs Ha (proj1 Hu1)) as Hr.
  split.
  - rewrite updateTick_actual.
    pose proof (lag_step_between (turbineRpmSettingValue p) _ Ha) as Hl.
    pose proof (lag_step_nonneg _ _ Ha Hs) as Hl0.
    remember (Spec.lag_step (turbineRpmSettingValue p)
                            (turbineRpmActualValue p)) as l.
    revert Hl. split_minmax; intros Hl; split; nra.
  - rewrite updateTick_velocity, updateTick_acceleration.
    remember (turbineRpmActualValue (updateTick p u1 u2)) as r.
    assert (Hacc : r / 10.0 / 10 == r / 100) by (field).
    rewrite Hacc.
    assert (Hq : 0 <= r / 100) by (apply Qdiv_nonneg; lra).
    remember (r / 100) as q. split; nra.
Qed.





(** ** Invariants of runs *)

Lemma Qdiv_10 (v : Q) : v / 10.0 == v / 10.
Proof. unfold Qdiv. apply Qmult_comp; reflexivity. Qed.

Lemma acceleration_event (p : Player) (e : Event) :
  acceleration p == turbineRpmActualValue p / 10 ->
  acceleration (apply_event p e)
  == turbineRpmActualValue (apply_event p e) / 10.
Proof.
  intros H. destruct e; cbn [apply_event]; try exact H.
  - rewrite updateTick_acceleration. apply Qdiv_10.
  - destruct (buttonTurbinePlus_frame p) as (_ & Ea & _ & Ec & _).
    now rewrite <- Ea, <- Ec.
  - destruct (buttonTurbineMinus_frame p) as (_ & Ea & _ & Ec & _).
    now rewrite <- Ea, <- Ec.
Qed.


(** The state of a vehicle at rest: setpoint, actual rpm and velocity 0. *)
Lemma rest_event (p : Player) (e : Event) :
  is_turbinePlus e = false ->
  turbineRpmSettingValue p == 0 /\ turbineRpmActualValue p == 0
  /\ velocity p == 0 ->
  turbineRpmSettingValue (apply_event p e) == 0
  /\ turbineRpmActualValue (apply_event p e) == 0
  /\ velocity (apply_event p e) == 0.
Proof.
  intros He (Hs & Ha & Hv). destruct e; try discriminate He;
    cbn [apply_event]; try (split; [|split]; assumption).
  - assert (Hl : Spec.lag_step (turbineRpmSettingValue p)
                               (turbineRpmActualValue p) == 0).
    { unfold Spec.lag_step. rewrite Hs, Ha. reflexivity. }
    assert (Hr : turbineRpmActualValue (updateTick p u1 u2) == 0).
    { rewrite updateTick_actual, Hl. ring. }
    split; [exact Hs|split; [exact Hr|]].
    rewrite updateTick_velocity, updateTick_acceleration, Hr, Hv.
    unfold Qdiv. ring.
  - destruct (buttonTurbineMinus_frame p) as (_ & Ea & Ev & _).
    rewrite <- Ea, <- Ev.
    split; [|split; assumption].
    rewrite buttonTurbineMinus_setting. unfold Spec.decreaseThrottle.
    split_minmax; lra.
Qed.

(** Without a press of "+ 10" the vehicle stays at rest: a run of any
    other events, ticks with any draws included, leaves the setpoint, the
    actual rpm and the velocity at 0. *)
Theorem rest_without_throttle (es : list Event) :
  count_events is_turbinePlus es = 0%nat ->
  turbineRpmSettingValue (run_player player_init es) == 0
  /\ turbineRpmActualValue (run_player player_init es) == 0
  /\ velocity (run_player player_init es) == 0.
Proof.
  assert (G : forall p,
             count_events is_turbinePlus es = 0%nat ->
             turbineRpmSettingValue p == 0 /\ turbineRpmActualValue p == 0
             /\ velocity p == 0 ->
             turbineRpmSettingValue (run_player p es) == 0
             /\ turbineRpmActualValue (run_player p es) == 0
             /\ velocity (run_player p es) == 0).
  { induction es as [|e es IH]; intros p Hc Hp; [exact Hp|].
    rewrite run_player_cons.
    unfold count_events in Hc. cbn [filter] in Hc.
    destruct (is_turbinePlus e) eqn:He; [discriminate Hc|].
    apply IH; [exact Hc|]. now apply rest_event. }
  intros Hc. apply G; [exact Hc|]. repeat split; reflexivity.
Qed.

Lemma rest_without_throttle_witness :
  velocity
    (run_player player_init
       [EvTurbineMinus; EvUpdateTick (1 # 2) (1 # 3); EvRudderLeft;
        EvUpdateTick 0 (3 # 4)])
  == 0.
Proof.
  apply (rest_without_throttle
           [EvTurbineMinus; EvUpdateTick (1 # 2) (1 # 3); EvRudderLeft;
            EvUpdateTick 0 (3 # 4)]).
  reflexivity.
Defined.

Lemma firstn_cons_run (p : Player) (e : Event) (es : list Event) (k : nat) :
  run_player p (firstn (S k) (e :: es))
  = run_player (apply_event p e) (firstn k es).
Proof. reflexivity. Qed.

Lemma velocity_other_events (p : Player) (e : Event) :
  (forall u1 u2, e <> EvUpdateTick u1 u2) ->
  velocity (apply_event p e) = velocity p.
Proof.
  intros He. destruct e; try reflexivity.
  - exfalso. now apply (He u1 u2).
  - destruct (buttonTurbinePlus_frame p) as (_ & _ & Ev & _).
    symmetry. exact Ev.
  - destruct (buttonTurbineMinus_frame p) as (_ & _ & Ev & _).
    symmetry. exact Ev.
Qed.

Lemma velocity_ceiling_from (M : Q) (es : list Event) :
  forall p,
    Spec.state_invariant p ->
    velocity p <= (993 # 700) * M ->
    Forall draws_in_range es ->
    (forall k, turbineRpmActualValue (run_player p (firstn k es)) <= M) ->
    velocity (run_player p es) <= (993 # 700) * M.
Proof.
  induction es as [|e es IH]; intros p Hinv Hv Hes Hrpm; [exact Hv|].
  inversion Hes as [|e' es' He Hes']; subst.
  rewrite run_player_cons.
  apply IH.
  - now apply state_invariant_event.
  - destruct e; try (rewrite velocity_other_events;
                     [exact Hv | intros; discriminate]).
    cbn [apply_event].
    pose proof (Hrpm 1%nat) as Hr. rewrite firstn_cons_run in Hr.
    change (run_player (apply_event p (EvUpdateTick u1 u2)) (firstn 0 es))
      with (updateTick p u1 u2) in Hr.
    destruct Hinv as (Ha & Hv0 & Hs).
    destruct He as [Hu1 Hu2].
    destruct (updateTick_bounds p u1 u2 Ha (proj1 Hs) Hv0 Hu1 Hu2)
      as (_ & _ & Hup).
    remember (turbineRpmActualValue (updateTick p u1 u2)) as r.
    assert (Hdiv : r / 100 <= M / 100).
    { unfold Qdiv. apply Qmult_le_compat_r; [exact Hr|].
      vm_compute. discriminate. }
    assert (HM : M / 100 == M * (1 # 100)) by (unfold Qdiv; reflexivity).
    remember (r / 100) as q. remember (M / 100) as m. lra.
  - exact Hes'.
  - intros k. specialize (Hrpm (S k)). now rewrite firstn_cons_run in Hrpm.
Qed.



(** ** Beyond the scale, on binary64 *)

(** The actual rpm is not held below the setpoint's bound: on binary64,
    with the setpoint at 200 and the draws 0.75 and 0.5 at every tick, 600
    ticks from rest take the actual rpm above 200 and the velocity into the
    last band.  The clamp of [rpmMeterDonut] at 200 is therefore exercised,
    and so is the last branch of [writeLines]. *)
Theorem float64_rpm_exceeds_scale :
  (200 <? Float64.turbineRpmActualValue
            (float64_ticks 600 0.75 0.5
                           (Float64.mkPlayer 200 0 0 0 35)))%float = true
  /\ Float64.classify
       (Float64.velocity
          (float64_ticks 600 0.75 0.5 (Float64.mkPlayer 200 0 0 0 35)))
     = FullSpeedForward
  /\ (0 <=? 0.75)%float = true /\ (0.75 <? 1)%float = true
  /\ (0 <=? 0.5)%float = true /\ (0.5 <? 1)%float = true.
Proof. repeat split; vm_compute; reflexivity. Qed.
